(** * Si5351A quadrature clock generator: frequency planner and register packers

    Shallow embedding of [Si5351_routines.c] (with the constants of
    [Si5351SDR.h]) and the properties of its register traffic.

    Conventions of the embedding.
    - Integer types are those of the 8-bit target the source is written for:
      [unsigned long] is a 32-bit unsigned integer, [char] and
      [unsigned char] are 8-bit ones, and [unsigned] holds at least 16 bits.
      Values are kept in [Z] and every store into a 32-bit or 8-bit object is
      reduced modulo [2^32] or [2^8].
    - [float] is IEEE-754 binary32 ([prec = 24], [emax = 128]) and [float]
      expressions are evaluated in that format: conversions and operations
      are the correctly rounded ones (to nearest, ties to even) of the
      standard library's [SpecFloat].
    - The I2C primitives [I2C1_Start], [I2C1_Wr], [I2C1_Stop] are external:
      calling one appends an event to the bus log. *)

From Stdlib Require Import ZArith List Bool Lia.
From Stdlib Require Import Floats.SpecFloat.
From Stdlib Require Import Reals Lra.
Import ListNotations.
Local Open Scope Z_scope.

(** ** Machine integers *)

Module CInt.

Definition u8 (x : Z) : Z := x mod 2 ^ 8.
Definition u32 (x : Z) : Z := x mod 2 ^ 32.

End CInt.
Import CInt.

(** ** Single-precision floating point *)

Module Float32.

Definition prec : Z := 24.
Definition emax : Z := 128.

Definition float := spec_float.

(** Conversion of an unsigned integer to [float]. *)
Definition of_Z (n : Z) : float := binary_normalize prec emax n 0 false.

Definition mul (x y : float) : float := SFmul prec emax x y.
Definition div (x y : float) : float := SFdiv prec emax x y.

(** Conversion of a [float] to an integer discards the fractional part.
    [Z.shiftl] by a negative amount is a right shift, that is the floor of
    the positive mantissa scaled down. *)
Definition trunc (x : float) : Z :=
  match x with
  | S754_finite s m e => cond_Zopp s (Z.shiftl (Zpos m) e)
  | _ => 0
  end.

(** [(unsigned long) x].  The conversion is only defined by C for values
    in range; out of range the embedding wraps. *)
Definition to_ulong (x : float) : Z := u32 (trunc x).

(** Real-number semantics, used to state the accuracy of the operations:
    a finite number is [m * 2^e]. *)
Definition bpow (e : Z) : R := powerRZ 2 e.
Definition F2R (m e : Z) : R := (IZR m * bpow e)%R.

(** [located x mrs]: the shift record [mrs] describes the non-negative
    real [x]: its mantissa is the integer part of [x], the round bit tells
    whether the fractional part reaches one half, and the sticky bit
    whether anything is left beyond the round bit. *)
Definition located (x : R) (mrs : shr_record) : Prop :=
  0 <= shr_m mrs /\
  (IZR (shr_m mrs) <= x < IZR (shr_m mrs) + 1)%R /\
  (shr_r mrs = true <-> (IZR (shr_m mrs) + / 2 <= x)%R) /\
  (shr_s mrs = true <->
   x <> (IZR (shr_m mrs) + (if shr_r mrs then / 2 else 0))%R).

End Float32.

(** ** Constants of Si5351SDR.h *)

Definition SI5351A_ADDRESS : Z := 0xC0.
Definition Si5351A_XTAL_FREQ : Z := 24999117.
Definition SI_SYNTH_PLL_A : Z := 26.
Definition SI_SYNTH_MS_0 : Z := 42.
Definition SI_SYNTH_MS_1 : Z := 50.
Definition SI_R_DIV_1 : Z := 0.
Definition CLK0_PHOFF : Z := 165.
Definition CLK1_PHOFF : Z := 166.

(** ** The I2C bus and the command monad *)

Inductive i2c_event : Type :=
| I2C1_Start
| I2C1_Wr (b : Z)
| I2C1_Stop.

(** The bus log, oldest event first. *)
Definition bus : Type := list i2c_event.

(** A command transforms the bus log and may fail; the only failure in this
    program is the read of a local variable that was never assigned. *)
Definition io (A : Type) : Type := bus -> option (A * bus).

Definition ret {A : Type} (a : A) : io A := fun b => Some (a, b).

Definition bind {A B : Type} (c : io A) (k : A -> io B) : io B :=
  fun b => match c b with
           | Some (a, b') => k a b'
           | None => None
           end.

Definition emit (e : i2c_event) : io unit := fun b => Some (tt, b ++ [e]).

(** Use of values that exist only if every local they depend on was
    assigned. *)
Definition defined {A : Type} (v : option A) : io A :=
  fun b => match v with
           | Some a => Some (a, b)
           | None => None
           end.

Declare Scope io_scope.
Delimit Scope io_scope with io.
Notation "c1 ;; c2" := (bind c1 (fun _ => c2))
  (at level 61, right associativity) : io_scope.
Notation "x <- c1 ;; c2" := (bind c1 (fun x => c2))
  (at level 61, c1 at next level, right associativity) : io_scope.

(** The log a command leaves on an empty bus. *)
Definition run {A : Type} (c : io A) : option bus :=
  match c [] with
  | Some (_, b) => Some b
  | None => None
  end.

(** ** Si5351_routines.c *)

(** The locals of [si5351aSetFrequency] once line 28 has run. *)
Module Locals.
Record t : Type := make {
  divider : Z;
  pllFreq : Z;
  mult : Z;
  l : Z;
  num : Z;
  denom : Z
}.
End Locals.

Section Routines.
Local Open Scope io_scope.

Definition sendRegister (reg_addr reg_value : Z) : io unit :=
  let reg_addr := u8 reg_addr in
  let reg_value := u8 reg_value in
  emit I2C1_Start ;;
  emit (I2C1_Wr SI5351A_ADDRESS) ;;
  emit (I2C1_Wr reg_addr) ;;
  emit (I2C1_Wr reg_value) ;;
  emit I2C1_Stop.

(** [(unsigned long)(128 * ((float)num / (float)denom))], the expression
    of lines 41 and 43. *)
Definition pll_q (num denom : Z) : Z :=
  Float32.to_ulong
    (Float32.mul (Float32.of_Z 128)
                 (Float32.div (Float32.of_Z num) (Float32.of_Z denom))).

Definition setupPLL_P1 (mult num denom : Z) : Z :=
  let P1 := pll_q num denom in
  u32 (128 * mult + P1 - 512).

Definition setupPLL_P2 (num denom : Z) : Z :=
  let P2 := pll_q num denom in
  u32 (128 * num - denom * P2).

Definition setupPLL (pll mult num denom : Z) : io unit :=
  let pll := u8 pll in
  let mult := u8 mult in
  let num := u32 num in
  let denom := u32 denom in
  let P1 := setupPLL_P1 mult num denom in
  let P2 := setupPLL_P2 num denom in
  let P3 := denom in
  sendRegister (pll + 0) (Z.shiftr (Z.land P3 0x0000FF00) 8) ;;
  sendRegister (pll + 1) (Z.land P3 0x000000FF) ;;
  sendRegister (pll + 2) (Z.shiftr (Z.land P1 0x00030000) 16) ;;
  sendRegister (pll + 3) (Z.shiftr (Z.land P1 0x0000FF00) 8) ;;
  sendRegister (pll + 4) (Z.land P1 0x000000FF) ;;
  sendRegister (pll + 5) (Z.lor (Z.shiftr (Z.land P3 0x000F0000) 12)
                                (Z.shiftr (Z.land P2 0x000F0000) 16)) ;;
  sendRegister (pll + 6) (Z.shiftr (Z.land P2 0x0000FF00) 8) ;;
  sendRegister (pll + 7) (Z.land P2 0x000000FF).

Definition setupMultisynth (synth divider rDiv : Z) : io unit :=
  let synth := u8 synth in
  let divider := u32 divider in
  let rDiv := u8 rDiv in
  let P1 := u32 (128 * divider - 512) in
  let P2 := 0 in
  let P3 := 1 in
  sendRegister (synth + 0) (Z.shiftr (Z.land P3 0x0000FF00) 8) ;;
  sendRegister (synth + 1) (Z.land P3 0x000000FF) ;;
  sendRegister (synth + 2) (Z.lor (Z.shiftr (Z.land P1 0x00030000) 16) rDiv) ;;
  sendRegister (synth + 3) (Z.shiftr (Z.land P1 0x0000FF00) 8) ;;
  sendRegister (synth + 4) (Z.land P1 0x000000FF) ;;
  sendRegister (synth + 5) (Z.lor (Z.shiftr (Z.land P3 0x000F0000) 12)
                                  (Z.shiftr (Z.land P2 0x000F0000) 16)) ;;
  sendRegister (synth + 6) (Z.shiftr (Z.land P2 0x0000FF00) 8) ;;
  sendRegister (synth + 7) (Z.land P2 0x000000FF).

(** Lines 11, 19 and 20: the declaration and the two guarded assignments
    of [divider]; [None] is the declared but unassigned local. *)
Definition select_divider (frequency : Z) : option Z :=
  let divider := None in
  let divider := if frequency <? 9050001 then Some 124 else divider in
  let divider := if frequency >? 9050000 then Some 44 else divider in
  divider.

(** Lines 24 to 27: [f = l; f *= 1048575; f /= xtalFreq; num = f]. *)
Definition plan_num (l xtalFreq : Z) : Z :=
  let f := Float32.of_Z l in
  let f := Float32.mul f (Float32.of_Z 1048575) in
  let f := Float32.div f (Float32.of_Z xtalFreq) in
  Float32.to_ulong f.

(** Lines 11 to 28.  Line 21 reads [divider]: there is no value when it
    was never assigned. *)
Definition si5351aSetFrequency_locals (frequency : Z) : option Locals.t :=
  let xtalFreq := Si5351A_XTAL_FREQ in
  match select_divider frequency with
  | None => None
  | Some divider =>
      let pllFreq := u32 (divider * frequency) in
      let mult := u8 (pllFreq / xtalFreq) in
      let l := u32 (pllFreq mod xtalFreq) in
      let num := plan_num l xtalFreq in
      let denom := 1048575 in
      Some (Locals.make divider pllFreq mult l num denom)
  end.

Definition si5351aSetFrequency (frequency : Z) : io unit :=
  let frequency := u32 frequency in
  v <- defined (si5351aSetFrequency_locals frequency) ;;
  setupPLL SI_SYNTH_PLL_A (Locals.mult v) (Locals.num v) (Locals.denom v) ;;
  setupMultisynth SI_SYNTH_MS_0 (Locals.divider v) SI_R_DIV_1 ;;
  setupMultisynth SI_SYNTH_MS_1 (Locals.divider v) SI_R_DIV_1 ;;
  sendRegister CLK0_PHOFF (Locals.divider v) ;;
  sendRegister CLK1_PHOFF 0.

End Routines.

(** ** Reading the bus log back as register writes *)

(** Each well-formed transaction START, device address, register, value,
    STOP is one register write. *)
Fixpoint reg_writes (b : bus) : list (Z * Z) :=
  match b with
  | I2C1_Start :: b1 =>
      match b1 with
      | I2C1_Wr a :: I2C1_Wr r :: I2C1_Wr v :: I2C1_Stop :: rest =>
          if a =? SI5351A_ADDRESS then (r, v) :: reg_writes rest
          else reg_writes b1
      | _ => reg_writes b1
      end
  | _ :: b1 => reg_writes b1
  | [] => []
  end.

(** The bus events of one register write and of a sequence of them. *)
Definition transaction (w : Z * Z) : bus :=
  [I2C1_Start; I2C1_Wr SI5351A_ADDRESS; I2C1_Wr (fst w); I2C1_Wr (snd w);
   I2C1_Stop].

Definition encode (ws : list (Z * Z)) : bus := flat_map transaction ws.

(** [performs c ws]: whatever the bus log, command [c] succeeds and appends
    exactly the register writes [ws]. *)
Definition performs (c : io unit) (ws : list (Z * Z)) : Prop :=
  forall b, c b = Some (tt, b ++ encode ws).

(** The register writes of one call on a fresh log. *)
Definition writes_of (c : io unit) : option (list (Z * Z)) :=
  option_map reg_writes (run c).

(** The values written to register [r], in order. *)
Definition written_to (r : Z) (ws : list (Z * Z)) : list Z :=
  map snd (filter (fun w => fst w =? r) ws).

(** The values written to the eight registers starting at [base]. *)
Definition frame_at (base : Z) (ws : list (Z * Z)) : list Z :=
  flat_map (fun i => written_to (base + i) ws) [0; 1; 2; 3; 4; 5; 6; 7].

(** ** The specification's side: formulas and register layout *)

Module Spec.

(** Band selection. *)
Definition divider (F : Z) : Z := if F <=? 9050000 then 124 else 44.

(** Exact floor of [remainder * 1048575 / xtalFreq]. *)
Definition num (remainder : Z) : Z :=
  remainder * 1048575 / Si5351A_XTAL_FREQ.

(** Packed parameters of the PLL. *)
Definition P1 (mult num denom : Z) : Z := 128 * mult + 128 * num / denom - 512.
Definition P2 (num denom : Z) : Z := 128 * num - denom * (128 * num / denom).
Definition P3 (denom : Z) : Z := denom.

(** Bits [hi:lo] of [x]. *)
Definition bits (hi lo x : Z) : Z := (x / 2 ^ lo) mod 2 ^ (hi - lo + 1).

(** The eight bytes of a register frame; [rDiv] is ORed into offset +2
    (0 for a PLL). *)
Definition frame (P1 P2 P3 rDiv : Z) : list Z :=
  [ bits 15 8 P3;
    bits 7 0 P3;
    Z.lor (bits 17 16 P1) rDiv;
    bits 15 8 P1;
    bits 7 0 P1;
    bits 19 16 P3 * 16 + bits 19 16 P2;
    bits 15 8 P2;
    bits 7 0 P2 ].

(** Integer-mode Multisynth frame. *)
Definition ms_frame (divider rDiv : Z) : list Z :=
  frame (128 * divider - 512) 0 1 rDiv.

(** Inverse of the layout: [(P1, P2, P3)] read back from eight bytes. *)
Definition unpack (bytes : list Z) : option (Z * Z * Z) :=
  match bytes with
  | [b0; b1; b2; b3; b4; b5; b6; b7] =>
      Some (bits 1 0 b2 * 2 ^ 16 + b3 * 2 ^ 8 + b4,
            bits 3 0 b5 * 2 ^ 16 + b6 * 2 ^ 8 + b7,
            bits 7 4 b5 * 2 ^ 16 + b0 * 2 ^ 8 + b1)
  | _ => None
  end.

End Spec.

(** The triple read back, by the inverse of the layout, from the eight
    bytes the PLL packer writes at the PLL A base. *)
Definition pll_round_trip (mult num denom : Z) : option (Z * Z * Z) :=
  match writes_of (setupPLL SI_SYNTH_PLL_A mult num denom) with
  | Some ws => Spec.unpack (frame_at SI_SYNTH_PLL_A ws)
  | None => None
  end.

(** ** Definitions for the further properties of the packers and the planner *)

(** The remaining output-divider codes of Si5351SDR.h (lines 15 to 21),
    written there in binary: the R divider sits in bits 6:4. *)
Definition SI_R_DIV_2 : Z := 0x10.
Definition SI_R_DIV_4 : Z := 0x20.
Definition SI_R_DIV_8 : Z := 0x30.
Definition SI_R_DIV_16 : Z := 0x40.
Definition SI_R_DIV_32 : Z := 0x50.
Definition SI_R_DIV_64 : Z := 0x60.
Definition SI_R_DIV_128 : Z := 0x70.

Definition R_DIV_codes : list Z :=
  [SI_R_DIV_1; SI_R_DIV_2; SI_R_DIV_4; SI_R_DIV_8;
   SI_R_DIV_16; SI_R_DIV_32; SI_R_DIV_64; SI_R_DIV_128].

(** The triple read back, by the inverse of the layout, from the eight
    bytes the Multisynth packer writes. *)
Definition ms_round_trip (synth divider rDiv : Z) : option (Z * Z * Z) :=
  match writes_of (setupMultisynth synth divider rDiv) with
  | Some ws => Spec.unpack (map snd ws)
  | None => None
  end.

(** The numerators below [denom = 1048575] at which the single-precision
    floor of lines 41 and 43 is not the exact one. *)
Definition pll_q_hazards : list Z := [1023999; 1032191; 1040383].

(** Is the numerator of lines 24 to 27 below the denominator? *)
Definition plan_num_below_denom (l : Z) : bool :=
  plan_num l Si5351A_XTAL_FREQ <? 1048575.

(** [scan p lo n]: does [p] hold at the [n] integers from [lo] upwards? *)
Definition scan_step (p : Z -> bool) (s : Z * bool) : Z * bool :=
  (fst s + 1, if snd s then p (fst s) else false).

Definition scan (p : Z -> bool) (lo : Z) (n : positive) : bool :=
  snd (Pos.iter (scan_step p) (lo, true) n).

(** * Accuracy of the single-precision operations

    The standard model of correctly rounded arithmetic, derived from the
    definitions of [SpecFloat] for the operations and ranges the planner
    uses: the result of an operation on normal numbers is within relative
    distance [2^-24] of the exact result. *)

Module Float32Facts.
Import Float32.

Lemma bpow_pos e : (0 < bpow e)%R.
Proof. apply powerRZ_lt; lra. Qed.

Lemma bpow_add a b : bpow (a + b) = (bpow a * bpow b)%R.
Proof. apply powerRZ_add; lra. Qed.

Lemma bpow_0 : bpow 0 = 1%R.
Proof. reflexivity. Qed.

Lemma bpow_opp a : bpow (- a) = (/ bpow a)%R.
Proof. apply powerRZ_neg'. Qed.

Lemma bpow_IZR k : 0 <= k -> bpow k = IZR (2 ^ k).
Proof.
  intros Hk. unfold bpow. destruct k as [|p|p]; [reflexivity| |lia].
  symmetry. apply (Zpower_pos_powerRZ 2 p).
Qed.

Lemma bpow_m1 : bpow (-1) = (/ 2)%R.
Proof. unfold bpow; simpl. lra. Qed.

Lemma bpow_1 : bpow 1 = 2%R.
Proof. unfold bpow; simpl. lra. Qed.

(** Number of binary digits. *)
Lemma digits2_pos_bounds p :
  2 ^ (Zpos (digits2_pos p) - 1) <= Zpos p < 2 ^ Zpos (digits2_pos p).
Proof.
  induction p as [p IH|p IH|]; simpl digits2_pos.
  - rewrite Pos2Z.inj_succ.
    replace (Z.succ (Zpos (digits2_pos p)) - 1) with (Z.succ (Zpos (digits2_pos p) - 1)) by lia.
    rewrite !Z.pow_succ_r by lia. lia.
  - rewrite Pos2Z.inj_succ.
    replace (Z.succ (Zpos (digits2_pos p)) - 1) with (Z.succ (Zpos (digits2_pos p) - 1)) by lia.
    rewrite !Z.pow_succ_r by lia. lia.
  - simpl. lia.
Qed.

Lemma Zdigits2_bounds m :
  0 < m -> 2 ^ (Zdigits2 m - 1) <= m < 2 ^ Zdigits2 m.
Proof.
  destruct m as [|p|p]; try lia. intros _. apply digits2_pos_bounds.
Qed.

Lemma Zdigits2_pos m : 0 < m -> 0 < Zdigits2 m.
Proof. destruct m; simpl; lia. Qed.

Lemma Zdigits2_unique m d :
  0 < m -> 2 ^ (d - 1) <= m < 2 ^ d -> Zdigits2 m = d.
Proof.
  intros Hm [Hlo Hhi].
  pose proof (Zdigits2_bounds m Hm) as [Blo Bhi].
  pose proof (Zdigits2_pos m Hm) as Hd.
  assert (0 < d).
  { destruct (Z.lt_trichotomy d 0) as [Hn|[Hz|Hp]]; [|subst d; simpl in Hhi; lia|assumption].
    rewrite (Z.pow_neg_r 2 d) in Hhi by lia. lia. }
  destruct (Z.lt_trichotomy (Zdigits2 m) d) as [Hlt|[Heq|Hgt]]; [|assumption|].
  - assert (2 ^ Zdigits2 m <= 2 ^ (d - 1)) by (apply Z.pow_le_mono_r; lia). lia.
  - assert (2 ^ d <= 2 ^ (Zdigits2 m - 1)) by (apply Z.pow_le_mono_r; lia). lia.
Qed.

(** ** Locating a real number with respect to a truncated mantissa *)

Lemma IZR_xO p : IZR (Zpos p~0) = (2 * IZR (Zpos p))%R.
Proof. rewrite <- mult_IZR. reflexivity. Qed.

Lemma IZR_xI p : IZR (Zpos p~1) = (2 * IZR (Zpos p) + 1)%R.
Proof. rewrite <- mult_IZR, <- plus_IZR. reflexivity. Qed.

Lemma located_shr_1 x mrs : located x mrs -> located (x * / 2) (shr_1 mrs).
Proof.
  destruct mrs as [m r s]. unfold located; simpl.
  intros (Hm & Hx & Hr & Hs).
  assert (Hrs : orb r s = true <-> x <> IZR m).
  { destruct r; simpl.
    - split; [intros _|reflexivity]. assert (IZR m + / 2 <= x)%R by (apply Hr; reflexivity). lra.
    - rewrite Hs. rewrite Rplus_0_r. reflexivity. }
  destruct m as [|[p|p|]|p]; try lia; cbn [shr_1 shr_m shr_r shr_s];
    [| pose proof (IZR_xI p) as E | pose proof (IZR_xO p) as E |].
  - (* 0 *)
    split; [lia|]. split; [lra|]. split.
    + split; [discriminate|intros H; lra].
    + rewrite Hrs. split; intros H E; apply H; lra.
  - (* 2p+1 *)
    split; [lia|]. split; [lra|]. split.
    + split; [intros _; lra|reflexivity].
    + rewrite Hrs. split; intros H E'; apply H; lra.
  - (* 2p *)
    split; [lia|]. split; [lra|]. split.
    + split; [discriminate|intros H; lra].
    + rewrite Hrs. split; intros H E'; apply H; lra.
  - (* 1 *)
    split; [lia|]. split; [lra|]. split.
    + split; [intros _; lra|reflexivity].
    + rewrite Hrs. split; intros H E; apply H; lra.
Qed.

Lemma located_iter_pos p : forall x mrs,
  located x mrs -> located (x * bpow (Zneg p)) (SpecFloat.iter_pos shr_1 p mrs).
Proof.
  induction p as [p IH|p IH|]; intros x mrs H; simpl SpecFloat.iter_pos.
  - replace (Zneg p~1) with (-1 + (Zneg p + Zneg p)) by lia.
    rewrite !bpow_add, bpow_m1.
    replace (x * (/ 2 * (bpow (Zneg p) * bpow (Zneg p))))%R
      with (x * / 2 * bpow (Zneg p) * bpow (Zneg p))%R by ring.
    apply IH, IH, located_shr_1, H.
  - replace (Zneg p~0) with (Zneg p + Zneg p) by lia.
    rewrite !bpow_add.
    replace (x * (bpow (Zneg p) * bpow (Zneg p)))%R
      with (x * bpow (Zneg p) * bpow (Zneg p))%R by ring.
    apply IH, IH, H.
  - change (Zneg 1) with (-1). rewrite bpow_m1. apply located_shr_1, H.
Qed.

Lemma located_shr mrs e n x :
  0 <= n -> located x mrs ->
  snd (shr mrs e n) = e + n /\ located (x * bpow (- n)) (fst (shr mrs e n)).
Proof.
  intros Hn H. destruct n as [|p|p]; try lia; unfold shr; cbn [fst snd].
  - split; [lia|]. change (- 0) with 0. rewrite bpow_0, Rmult_1_r. exact H.
  - split; [reflexivity|]. change (- Zpos p) with (Zneg p).
    apply located_iter_pos, H.
Qed.

(** Rounding to nearest, ties to even, of a located real. *)
Lemma located_round_nearest_even x mrs :
  located x mrs ->
  let z := round_nearest_even (shr_m mrs) (loc_of_shr_record mrs) in
  shr_m mrs <= z <= shr_m mrs + 1 /\ (Rabs (IZR z - x) <= / 2)%R.
Proof.
  destruct mrs as [m r s]. unfold located; simpl.
  intros (Hm & Hx & Hr & Hs).
  destruct r, s; simpl.
  - assert (IZR m + / 2 <= x)%R by (apply Hr; reflexivity).
    split; [lia|]. rewrite plus_IZR. apply Rabs_le. lra.
  - assert (IZR m + / 2 <= x)%R by (apply Hr; reflexivity).
    assert (x = IZR m + / 2)%R.
    { destruct (Req_dec x (IZR m + / 2)) as [E|E]; [exact E|].
      apply Hs in E. discriminate. }
    destruct (Z.even m); (split; [lia|]); rewrite ?plus_IZR; apply Rabs_le; lra.
  - assert (~ (IZR m + / 2 <= x)%R) by (intros E; apply Hr in E; discriminate).
    split; [lia|]. apply Rabs_le. lra.
  - assert (x = IZR m + 0)%R.
    { destruct (Req_dec x (IZR m + 0)) as [E|E]; [exact E|].
      apply Hs in E. discriminate. }
    split; [lia|]. apply Rabs_le. lra.
Qed.

Lemma located_exact m : 0 <= m -> located (IZR m) (shr_record_of_loc m loc_Exact).
Proof.
  intros Hm. unfold located; simpl. split; [exact Hm|]. split; [lra|]. split.
  - split; [discriminate|intros H; lra].
  - split; [discriminate|intros H; exfalso; apply H; lra].
Qed.

(** ** Rounding a located real to binary32 *)

Lemma fexp_normal k : -149 <= k - 24 -> fexp prec emax k = k - 24.
Proof. unfold fexp, emin, prec, emax. lia. Qed.

Lemma shr_m_of_loc m l : shr_m (shr_record_of_loc m l) = m.
Proof. destruct l as [|[ | | ]]; reflexivity. Qed.

Lemma IZR_bpow_le k m : 0 <= k -> 2 ^ k <= m -> (bpow k <= IZR m)%R.
Proof. intros Hk H. rewrite bpow_IZR by exact Hk. apply IZR_le, H. Qed.

Lemma IZR_bpow_lt k m : 0 <= k -> m < 2 ^ k -> (IZR m < bpow k)%R.
Proof. intros Hk H. rewrite bpow_IZR by exact Hk. apply IZR_lt, H. Qed.

(** The standard model of a correctly rounded operation in the normal
    range: the result is a normal number within relative distance [2^-24] of
    the exact value [x * 2^ex]. *)
Lemma binary_round_aux_spec sx mx ex lx x :
  0 < mx -> 24 <= Zdigits2 mx ->
  -149 <= ex + Zdigits2 mx - 24 < 104 ->
  located x (shr_record_of_loc mx lx) ->
  exists m e,
    binary_round_aux prec emax sx mx ex lx = S754_finite sx m e /\
    2 ^ 23 <= Zpos m < 2 ^ 24 /\
    ex + Zdigits2 mx - 24 <= e <= ex + Zdigits2 mx - 23 /\
    (Rabs (F2R (Zpos m) e - x * bpow ex) <= bpow (-24) * (x * bpow ex))%R.
Proof.
  intros Hmx Hd Hrange Hloc.
  pose proof (Zdigits2_bounds mx Hmx) as [Dlo Dhi].
  set (d := Zdigits2 mx) in *. set (n := d - 24).
  (* bounds on x *)
  assert (Hx : (bpow (d - 1) <= x < bpow d)%R).
  { destruct Hloc as (_ & Hx & _). rewrite shr_m_of_loc in Hx.
    assert (bpow (d - 1) <= IZR mx)%R by (apply IZR_bpow_le; lia).
    assert (IZR (mx + 1) <= bpow d)%R.
    { rewrite bpow_IZR by lia. apply IZR_le. lia. }
    rewrite plus_IZR in *. lra. }
  unfold binary_round_aux, shr_fexp. fold d.
  rewrite fexp_normal by lia.
  replace (d + ex - 24 - ex) with n by (unfold n; lia).
  destruct (located_shr (shr_record_of_loc mx lx) ex n x) as [He' Hloc'];
    [unfold n; lia|exact Hloc|].
  destruct (shr (shr_record_of_loc mx lx) ex n) as [mrs' e'].
  simpl in He', Hloc'. subst e'.
  set (x' := (x * bpow (- n))%R) in *.
  assert (Hx' : (bpow 23 <= x' < bpow 24)%R).
  { unfold x'.
    assert (E23 : bpow 23 = (bpow (d - 1) * bpow (- n))%R)
      by (rewrite <- bpow_add; f_equal; unfold n; lia).
    assert (E24 : bpow 24 = (bpow d * bpow (- n))%R)
      by (rewrite <- bpow_add; f_equal; unfold n; lia).
    rewrite E23, E24. pose proof (bpow_pos (- n)).
    split; [apply Rmult_le_compat_r; lra|apply Rmult_lt_compat_r; lra]. }
  pose proof (located_round_nearest_even x' mrs' Hloc') as [Hz Herr].
  set (z := round_nearest_even (shr_m mrs') (loc_of_shr_record mrs')) in *.
  assert (Hm' : 2 ^ 23 <= shr_m mrs' < 2 ^ 24).
  { destruct Hloc' as (_ & Hm' & _).
    rewrite !bpow_IZR in Hx' by lia.
    split.
    - assert (IZR (2 ^ 23) < IZR (shr_m mrs' + 1))%R by (rewrite plus_IZR; lra).
      apply lt_IZR in H. lia.
    - apply lt_IZR. lra. }
  assert (Hxe : (x * bpow ex = x' * bpow (ex + n))%R).
  { unfold x'. rewrite Rmult_assoc, <- bpow_add. f_equal. f_equal. lia. }
  assert (Hhalf : (/ 2 * bpow (ex + n) <= bpow (-24) * (x * bpow ex))%R).
  { rewrite Hxe.
    replace (/ 2 * bpow (ex + n))%R with (bpow (-24) * (bpow 23 * bpow (ex + n)))%R.
    - apply Rmult_le_compat_l; [pose proof (bpow_pos (-24)); lra|].
      apply Rmult_le_compat_r; [pose proof (bpow_pos (ex + n)); lra|lra].
    - rewrite <- Rmult_assoc, <- bpow_add. change (-24 + 23) with (-1).
      rewrite bpow_m1. reflexivity. }
  destruct (Z.eq_dec z (2 ^ 24)) as [Ez|Ez].
  - (* the rounded mantissa overflowed to 2^24 *)
    rewrite Ez. change (Zdigits2 (2 ^ 24)) with 25.
    rewrite fexp_normal by (unfold n; lia).
    replace (25 + (ex + n) - 24 - (ex + n)) with 1 by lia.
    simpl shr. cbv iota beta. simpl shr_m.
    replace (ex + n + 1 <=? emax - prec) with true
      by (symmetry; apply Z.leb_le; unfold emax, prec, n; lia).
    exists 8388608%positive, (ex + n + 1).
    split; [reflexivity|]. split; [lia|]. split; [unfold n; lia|].
    eapply Rle_trans; [|exact Hhalf].
    unfold F2R. rewrite bpow_add, bpow_1, Hxe.
    replace (IZR (Zpos 8388608) * (bpow (ex + n) * 2) - x' * bpow (ex + n))%R
      with ((IZR z - x') * bpow (ex + n))%R by (rewrite Ez; simpl; lra).
    rewrite Rabs_mult, (Rabs_pos_eq (bpow _)) by (pose proof (bpow_pos (ex + n)); lra).
    apply Rmult_le_compat_r; [pose proof (bpow_pos (ex + n)); lra|exact Herr].
  - assert (Hz24 : 2 ^ 23 <= z < 2 ^ 24) by lia.
    replace (Zdigits2 z) with 24
      by (symmetry; apply Zdigits2_unique; [lia|exact Hz24]).
    rewrite fexp_normal by (unfold n; lia).
    replace (24 + (ex + n) - 24 - (ex + n)) with 0 by lia.
    simpl shr. cbv iota beta. simpl shr_m.
    destruct z as [|pz|pz]; try lia.
    replace (ex + n <=? emax - prec) with true
      by (symmetry; apply Z.leb_le; unfold emax, prec, n; lia).
    exists pz, (ex + n).
    split; [reflexivity|]. split; [exact Hz24|]. split; [unfold n; lia|].
    eapply Rle_trans; [|exact Hhalf].
    unfold F2R. rewrite Hxe, <- Rmult_minus_distr_r.
    rewrite Rabs_mult, (Rabs_pos_eq (bpow _)) by (pose proof (bpow_pos (ex + n)); lra).
    apply Rmult_le_compat_r; [pose proof (bpow_pos (ex + n)); lra|exact Herr].
Qed.

(** ** The operations used by the planner *)

Lemma iter_xO p k : Zpos (Pos.iter xO p k) = Zpos p * 2 ^ Zpos k.
Proof.
  induction k as [|k IH] using Pos.peano_ind.
  - simpl. lia.
  - rewrite Pos.iter_succ, Pos2Z.inj_succ, Z.pow_succ_r by lia.
    rewrite Pos2Z.inj_xO, IH. lia.
Qed.

Lemma pow2_lt_inv a b : 0 <= b -> 2 ^ a < 2 ^ b -> a < b.
Proof. intros Hb H. apply (Z.pow_lt_mono_r_iff 2); [lia|exact Hb|exact H]. Qed.

(** Conversion of a non-zero 32-bit unsigned integer. *)
Lemma of_Z_spec n :
  0 < n < 2 ^ 32 ->
  exists m e,
    of_Z n = S754_finite false m e /\
    2 ^ 23 <= Zpos m < 2 ^ 24 /\
    -23 <= e <= 9 /\
    (Rabs (F2R (Zpos m) e - IZR n) <= bpow (-24) * IZR n)%R.
Proof.
  intros [Hpos Hlt]. destruct n as [|p|p]; try lia.
  unfold of_Z, binary_normalize, binary_round.
  pose proof (digits2_pos_bounds p) as [Dlo Dhi].
  set (d := Zpos (digits2_pos p)) in *.
  assert (Hd : 1 <= d <= 32).
  { split; [unfold d; lia|].
    assert (d - 1 < 32) by (apply pow2_lt_inv; lia). lia. }
  rewrite fexp_normal by lia.
  unfold shl_align.
  destruct (Z_lt_le_dec d 24) as [Hs|Hs].
  - (* fewer than 24 digits: the mantissa is shifted left, exactly *)
    destruct (d + 0 - 24 - 0) as [|k|k] eqn:Ek; try lia.
    assert (Hk : Zpos k = 24 - d) by lia.
    assert (Hdig : Zdigits2 (Zpos (Pos.iter xO p k)) = 24).
    { apply Zdigits2_unique; [lia|]. rewrite iter_xO, Hk.
      assert (E1 : 2 ^ (24 - 1) = 2 ^ (d - 1) * 2 ^ (24 - d))
        by (rewrite <- Z.pow_add_r by lia; f_equal; lia).
      assert (E2 : 2 ^ 24 = 2 ^ d * 2 ^ (24 - d))
        by (rewrite <- Z.pow_add_r by lia; f_equal; lia).
      rewrite E1, E2.
      assert (0 < 2 ^ (24 - d)) by (apply Z.pow_pos_nonneg; lia).
      split; [apply Z.mul_le_mono_nonneg_r; lia|apply Z.mul_lt_mono_pos_r; lia]. }
    destruct (binary_round_aux_spec false (Zpos (Pos.iter xO p k)) (d + 0 - 24)
                loc_Exact (IZR (Zpos (Pos.iter xO p k))))
      as (m & e & Hr & Hm & He & Herr);
      [lia|rewrite Hdig; lia|rewrite Hdig; lia|apply located_exact; lia|].
    exists m, e. split; [exact Hr|]. split; [exact Hm|].
    rewrite Hdig in He. split; [lia|].
    replace (IZR (Zpos p)) with (IZR (Zpos (Pos.iter xO p k)) * bpow (d + 0 - 24))%R;
      [exact Herr|].
    rewrite iter_xO, mult_IZR, Rmult_assoc, <- bpow_IZR, <- bpow_add by lia.
    replace (Zpos k + (d + 0 - 24)) with 0 by lia. rewrite bpow_0. ring.
  - (* at least 24 digits: rounding *)
    assert (Hsh : (let (mz, ez) :=
                     match d + 0 - 24 - 0 with
                     | Zneg k => (Pos.iter xO p k, d + 0 - 24)
                     | _ => (p, 0)
                     end in binary_round_aux prec emax false (Zpos mz) ez loc_Exact)
                  = binary_round_aux prec emax false (Zpos p) 0 loc_Exact).
    { destruct (d + 0 - 24 - 0) as [|k|k] eqn:Ek; try reflexivity; lia. }
    rewrite Hsh.
    destruct (binary_round_aux_spec false (Zpos p) 0 loc_Exact (IZR (Zpos p)))
      as (m & e & Hr & Hm & He & Herr);
      [lia|exact Hs|change (Zdigits2 (Zpos p)) with d; lia|apply located_exact; lia|].
    change (Zdigits2 (Zpos p)) with d in He.
    exists m, e. split; [exact Hr|]. split; [exact Hm|]. split; [lia|].
    rewrite bpow_0, Rmult_1_r in Herr. exact Herr.
Qed.

Lemma pow2_23 : 2 ^ 23 = 8388608. Proof. reflexivity. Qed.
Lemma pow2_24 : 2 ^ 24 = 16777216. Proof. reflexivity. Qed.

(** Product of two normal positive numbers whose product stays normal. *)
Lemma mul_spec m1 e1 m2 e2 :
  2 ^ 23 <= Zpos m1 < 2 ^ 24 ->
  2 ^ 23 <= Zpos m2 < 2 ^ 24 ->
  -172 <= e1 + e2 <= 55 ->
  exists m e,
    mul (S754_finite false m1 e1) (S754_finite false m2 e2) = S754_finite false m e /\
    2 ^ 23 <= Zpos m < 2 ^ 24 /\
    e1 + e2 + 23 <= e <= e1 + e2 + 25 /\
    (Rabs (F2R (Zpos m) e - F2R (Zpos m1) e1 * F2R (Zpos m2) e2)
     <= bpow (-24) * (F2R (Zpos m1) e1 * F2R (Zpos m2) e2))%R.
Proof.
  intros H1 H2 He. rewrite pow2_23, pow2_24 in H1, H2.
  unfold mul, SFmul. cbn [xorb].
  assert (Hp : 2 ^ 46 <= Zpos (m1 * m2) < 2 ^ 48).
  { rewrite Pos2Z.inj_mul. change (2 ^ 46) with (8388608 * 8388608).
    change (2 ^ 48) with (16777216 * 16777216). nia. }
  pose proof (Zdigits2_bounds (Zpos (m1 * m2)) ltac:(lia)) as [Dlo Dhi].
  set (d := Zdigits2 (Zpos (m1 * m2))) in *.
  assert (Hd : 47 <= d <= 48).
  { assert (0 < d) by (apply Zdigits2_pos; lia).
    assert (46 < d) by (apply pow2_lt_inv; lia).
    assert (d - 1 < 48) by (apply pow2_lt_inv; lia). lia. }
  destruct (binary_round_aux_spec false (Zpos (m1 * m2)) (e1 + e2) loc_Exact
              (IZR (Zpos (m1 * m2))))
    as (m & e & Hr & Hm & Hee & Herr);
    [lia|fold d; lia|fold d; lia|apply located_exact; lia|].
  fold d in Hee.
  exists m, e. split; [exact Hr|]. split; [exact Hm|]. split; [lia|].
  replace (F2R (Zpos m1) e1 * F2R (Zpos m2) e2)%R
    with (IZR (Zpos (m1 * m2)) * bpow (e1 + e2))%R; [exact Herr|].
  unfold F2R. rewrite Pos2Z.inj_mul, mult_IZR, bpow_add. ring.
Qed.

(** The location computed by the division from the remainder. *)
Lemma new_location_located a b q r :
  0 < b -> 0 <= q -> a = b * q + r -> 0 <= r < b ->
  located (IZR a / IZR b) (shr_record_of_loc q (new_location b r)).
Proof.
  intros Hb Hq Ha Hr.
  assert (Hb' : (0 < IZR b)%R) by (apply IZR_lt; exact Hb).
  set (rho := (IZR r / IZR b)%R).
  assert (Hx : (IZR a / IZR b = IZR q + rho)%R).
  { unfold rho. rewrite Ha, plus_IZR, mult_IZR. field. lra. }
  assert (Hrho : (rho * IZR b = IZR r)%R) by (unfold rho; field; lra).
  assert (Hrho0 : (0 <= rho < 1)%R).
  { assert (0 <= IZR r < IZR b)%R by (split; [apply IZR_le|apply IZR_lt]; lia).
    split.
    - apply Rmult_le_reg_r with (IZR b); [exact Hb'|]. lra.
    - apply Rmult_lt_reg_r with (IZR b); [exact Hb'|]. lra. }
  assert (Hlt : 2 * r < b -> (rho < / 2)%R).
  { intros H. apply IZR_lt in H. rewrite mult_IZR in H.
    apply Rmult_lt_reg_r with (IZR b); [exact Hb'|]. lra. }
  assert (Heq : 2 * r = b -> (rho = / 2)%R).
  { intros H. apply (f_equal IZR) in H. rewrite mult_IZR in H.
    apply Rmult_eq_reg_r with (IZR b); [|lra]. lra. }
  assert (Hgt : b < 2 * r -> (/ 2 < rho)%R).
  { intros H. apply IZR_lt in H. rewrite mult_IZR in H.
    apply Rmult_lt_reg_r with (IZR b); [exact Hb'|]. lra. }
  assert (Hnz : r <> 0 -> (0 < rho)%R).
  { intros H. assert (0 < IZR r)%R by (apply IZR_lt; lia).
    apply Rmult_lt_reg_r with (IZR b); [exact Hb'|]. lra. }
  assert (Hz : r = 0 -> (rho = 0)%R).
  { intros H. unfold rho. rewrite H. field. lra. }
  assert (Hloc : forall c,
             (c = Lt -> 2 * r < b) -> (c = Eq -> 2 * r = b) -> (c = Gt -> b < 2 * r) ->
             r <> 0 ->
             located (IZR q + rho) (shr_record_of_loc q (loc_Inexact c))).
  { intros c CLt CEq CGt Hr0. specialize (Hnz Hr0).
    unfold located.
    destruct c; cbn [shr_record_of_loc shr_m shr_r shr_s].
    - specialize (Heq (CEq eq_refl)). split; [exact Hq|]. split; [lra|]. split.
      + split; [intros _; lra|reflexivity].
      + split; [discriminate|intros H; exfalso; apply H; lra].
    - specialize (Hlt (CLt eq_refl)). split; [exact Hq|]. split; [lra|]. split.
      + split; [discriminate|intros H; lra].
      + split; [intros _; lra|reflexivity].
    - specialize (Hgt (CGt eq_refl)). split; [exact Hq|]. split; [lra|]. split.
      + split; [intros _; lra|reflexivity].
      + split; [intros _; lra|reflexivity]. }
  rewrite Hx. unfold new_location.
  destruct (Z.even b) eqn:Eb; [unfold new_location_even|unfold new_location_odd];
    (destruct (Z.eqb_spec r 0) as [Er|Er];
     [specialize (Hz Er); rewrite Hz, Rplus_0_r; apply located_exact, Hq|]).
  - apply Hloc; [| | |exact Er]; intros Hc.
    + apply Z.compare_lt_iff in Hc. exact Hc.
    + apply Z.compare_eq_iff in Hc. exact Hc.
    + apply Z.compare_gt_iff in Hc. exact Hc.
  - assert (Hodd : 2 * r <> b).
    { intros E. rewrite <- E, Z.even_mul in Eb. discriminate. }
    destruct (Z.compare_spec (2 * r + 1) b) as [Hc|Hc|Hc];
      apply Hloc; try exact Er; intros Hc'; try discriminate; lia.
Qed.

(** Quotient of two normal positive numbers whose quotient stays normal. *)
Lemma div_spec m1 e1 m2 e2 :
  2 ^ 23 <= Zpos m1 < 2 ^ 24 ->
  2 ^ 23 <= Zpos m2 < 2 ^ 24 ->
  -125 <= e1 - e2 <= 126 ->
  exists m e,
    div (S754_finite false m1 e1) (S754_finite false m2 e2) = S754_finite false m e /\
    2 ^ 23 <= Zpos m < 2 ^ 24 /\
    e1 - e2 - 24 <= e <= e1 - e2 - 22 /\
    (Rabs (F2R (Zpos m) e - F2R (Zpos m1) e1 / F2R (Zpos m2) e2)
     <= bpow (-24) * (F2R (Zpos m1) e1 / F2R (Zpos m2) e2))%R.
Proof.
  intros H1 H2 He.
  unfold div, SFdiv, SFdiv_core_binary. cbn [xorb].
  replace (Zdigits2 (Zpos m1)) with 24
    by (symmetry; apply Zdigits2_unique; [lia|exact H1]).
  replace (Zdigits2 (Zpos m2)) with 24
    by (symmetry; apply Zdigits2_unique; [lia|exact H2]).
  rewrite pow2_23, pow2_24 in H1, H2.
  rewrite fexp_normal by lia.
  replace (Z.min (24 + e1 - (24 + e2) - 24) (e1 - e2)) with (e1 - e2 - 24) by lia.
  replace (e1 - e2 - (e1 - e2 - 24)) with 24 by lia.
  cbv zeta iota beta.
  rewrite Z.shiftl_mul_pow2 by lia.
  pose proof (Z_div_mod (Zpos m1 * 2 ^ 24) (Zpos m2) ltac:(lia)) as Hdiv.
  destruct (Z.div_eucl (Zpos m1 * 2 ^ 24) (Zpos m2)) as [q r].
  destruct Hdiv as [Hqr Hr].
  rewrite pow2_24 in Hqr.
  assert (Hq : 2 ^ 23 <= q < 2 ^ 25).
  { change (2 ^ 23) with 8388608. change (2 ^ 25) with 33554432. nia. }
  pose proof (Zdigits2_bounds q ltac:(lia)) as [Dlo Dhi].
  set (d := Zdigits2 q) in *.
  assert (Hd : 24 <= d <= 25).
  { assert (0 < d) by (apply Zdigits2_pos; lia).
    assert (23 < d) by (apply pow2_lt_inv; lia).
    assert (d - 1 < 25) by (apply pow2_lt_inv; lia). lia. }
  destruct (binary_round_aux_spec false q (e1 - e2 - 24) (new_location (Zpos m2) r)
              (IZR (Zpos m1 * 16777216) / IZR (Zpos m2)))
    as (m & e & Hres & Hm & Hee & Herr);
    [lia|fold d; lia|fold d; lia| |].
  { apply new_location_located; lia. }
  fold d in Hee.
  exists m, e. split; [exact Hres|]. split; [exact Hm|]. split; [lia|].
  replace (F2R (Zpos m1) e1 / F2R (Zpos m2) e2)%R
    with (IZR (Zpos m1 * 16777216) / IZR (Zpos m2) * bpow (e1 - e2 - 24))%R;
    [exact Herr|].
  unfold F2R.
  replace (e1 - e2 - 24) with (e1 + (- e2 + - (24))) by lia.
  rewrite !bpow_add, !bpow_opp, (bpow_IZR 24) by lia. rewrite pow2_24, mult_IZR.
  pose proof (bpow_pos e2). assert (0 < IZR (Zpos m2))%R by (apply IZR_lt; lia).
  field. split; lra.
Qed.

(** Truncation of a non-negative finite number. *)
Lemma trunc_spec m e :
  0 <= trunc (S754_finite false m e) /\
  (IZR (trunc (S754_finite false m e)) <= F2R (Zpos m) e
   < IZR (trunc (S754_finite false m e)) + 1)%R.
Proof.
  unfold trunc, cond_Zopp, F2R.
  destruct (Z_le_gt_dec 0 e) as [He|He].
  - rewrite Z.shiftl_mul_pow2 by exact He.
    assert (0 < 2 ^ e) by (apply Z.pow_pos_nonneg; lia).
    split; [lia|]. rewrite mult_IZR, <- bpow_IZR by exact He. lra.
  - rewrite Z.shiftl_div_pow2 by lia.
    assert (Hp : 0 < 2 ^ (- e)) by (apply Z.pow_pos_nonneg; lia).
    pose proof (Z.div_mod (Zpos m) (2 ^ (- e)) ltac:(lia)) as Hdm.
    pose proof (Z.mod_pos_bound (Zpos m) (2 ^ (- e)) Hp) as Hmod.
    set (t := Zpos m / 2 ^ (- e)) in *. set (r := Zpos m mod 2 ^ (- e)) in *.
    split; [apply Z.div_pos; lia|].
    assert (Eb : bpow e = (/ IZR (2 ^ (- e)))%R).
    { rewrite <- bpow_IZR, <- bpow_opp by lia. f_equal. lia. }
    rewrite Eb.
    assert (Hp' : (0 < IZR (2 ^ (- e)))%R) by (apply IZR_lt; exact Hp).
    assert (Hm : (IZR (Zpos m) = IZR (2 ^ (- e)) * IZR t + IZR r)%R)
      by (rewrite <- mult_IZR, <- plus_IZR; f_equal; exact Hdm).
    assert (Hr : (0 <= IZR r < IZR (2 ^ (- e)))%R)
      by (split; [apply IZR_le|apply IZR_lt]; lia).
    rewrite Hm. split.
    + apply Rmult_le_reg_r with (IZR (2 ^ (- e))); [exact Hp'|].
      field_simplify; [|lra]. lra.
    + apply Rmult_lt_reg_r with (IZR (2 ^ (- e))); [exact Hp'|].
      field_simplify; [|lra]. lra.
Qed.

Lemma bpow_m24 : bpow (-24) = (/ 16777216)%R.
Proof. unfold bpow. simpl. lra. Qed.

Lemma Rabs_rel_bounds v x :
  (Rabs (v - x) <= bpow (-24) * x)%R ->
  (x - x / 16777216 <= v <= x + x / 16777216)%R.
Proof.
  intros H. rewrite bpow_m24 in H.
  pose proof (Rle_abs (v - x)) as Hp. pose proof (Rle_abs (- (v - x))) as Hn.
  rewrite Rabs_Ropp in Hn. lra.
Qed.

End Float32Facts.

(** ** The numerator computed by the planner *)

Section PlanNum.
Import Float32 Float32Facts.

Lemma of_Z_1048575 : of_Z 1048575 = S754_finite false 16777200 (-4).
Proof. reflexivity. Qed.

Lemma of_Z_xtal : of_Z Si5351A_XTAL_FREQ = S754_finite false 12499558 1.
Proof. reflexivity. Qed.

(** The single-precision numerator of lines 24 to 27 is within one unit
    of the exact floor of [l * 1048575 / xtalFreq]. *)
Lemma plan_num_close l :
  0 <= l < Si5351A_XTAL_FREQ ->
  Spec.num l - 1 <= plan_num l Si5351A_XTAL_FREQ
    <= Spec.num l + 1.
Proof.
  intros [Hl0 Hl]. destruct (Z.eq_dec l 0) as [->|Hnz]; [vm_compute; split; discriminate|].
  unfold Si5351A_XTAL_FREQ in Hl.
  unfold Spec.num, plan_num. rewrite of_Z_1048575, of_Z_xtal.
  destruct (of_Z_spec l) as (m1 & e1 & -> & Hm1 & He1 & Herr1);
    [change (2 ^ 32) with 4294967296; lia|].
  destruct (mul_spec m1 e1 16777200 (-4)) as (m2 & e2 & -> & Hm2 & He2 & Herr2);
    [exact Hm1|rewrite pow2_23, pow2_24; lia|lia|].
  destruct (div_spec m2 e2 12499558 1) as (m3 & e3 & -> & Hm3 & He3 & Herr3);
    [exact Hm2|rewrite pow2_23, pow2_24; lia|lia|].
  pose proof (trunc_spec m3 e3) as [Ht0 Ht].
  set (t := trunc (S754_finite false m3 e3)) in *.
  set (v1 := F2R (Zpos m1) e1) in *. set (v2 := F2R (Zpos m2) e2) in *.
  set (v3 := F2R (Zpos m3) e3) in *.
  assert (HK : F2R (Zpos 16777200) (-4) = 1048575%R)
    by (unfold F2R, bpow; simpl; lra).
  assert (HC : F2R (Zpos 12499558) 1 = 24999116%R)
    by (unfold F2R, bpow; simpl; lra).
  rewrite HK in Herr2. rewrite HC in Herr3.
  apply Rabs_rel_bounds in Herr1, Herr2, Herr3.
  assert (HL : (1 <= IZR l <= 24999116)%R) by (split; apply IZR_le; lia).
  pose proof (Z.div_mod (l * 1048575) Si5351A_XTAL_FREQ ltac:(discriminate)) as Hdm.
  pose proof (Z.mod_pos_bound (l * 1048575) Si5351A_XTAL_FREQ ltac:(reflexivity)) as Hmod.
  set (q := l * 1048575 / Si5351A_XTAL_FREQ) in *.
  set (r := (l * 1048575) mod Si5351A_XTAL_FREQ) in *.
  unfold Si5351A_XTAL_FREQ in Hdm, Hmod.
  assert (Hq : (IZR l * 1048575 = 24999117 * IZR q + IZR r)%R)
    by (rewrite <- !mult_IZR, <- plus_IZR; f_equal; exact Hdm).
  assert (Hr : (0 <= IZR r < 24999117)%R)
    by (split; [apply IZR_le|apply IZR_lt]; lia).
  assert (Hclose : (IZR q - 2 < IZR t < IZR q + 2)%R) by lra.
  assert (Hclose' : q - 2 < t < q + 2).
  { split; apply lt_IZR; rewrite ?minus_IZR, ?plus_IZR; lra. }
  assert (Hsmall : t < 2 ^ 32).
  { assert (q <= 1048575) by (unfold q, Si5351A_XTAL_FREQ; apply Z.div_le_upper_bound; lia).
    change (2 ^ 32) with 4294967296. lia. }
  unfold to_ulong, u32. rewrite Z.mod_small by lia. lia.
Qed.

End PlanNum.

(** * Register traffic of the routines *)

Section Traffic.
Local Open Scope io_scope.

Lemma encode_app ws1 ws2 : encode (ws1 ++ ws2) = encode ws1 ++ encode ws2.
Proof. unfold encode. apply flat_map_app. Qed.

(** Reading back the encoding of register writes returns them. *)
Lemma reg_writes_encode ws : reg_writes (encode ws) = ws.
Proof.
  induction ws as [|[r v] ws IH]; [reflexivity|].
  unfold encode in *. cbn [flat_map transaction app fst snd reg_writes].
  rewrite Z.eqb_refl, IH. reflexivity.
Qed.

Lemma performs_writes_of c ws : performs c ws -> writes_of c = Some ws.
Proof.
  intros H. unfold writes_of, run. rewrite (H []). cbn [app option_map].
  rewrite reg_writes_encode. reflexivity.
Qed.

Lemma performs_seq c1 c2 ws1 ws2 :
  performs c1 ws1 -> performs c2 ws2 -> performs (c1 ;; c2) (ws1 ++ ws2).
Proof.
  intros H1 H2 b. unfold bind. rewrite H1, H2, encode_app, app_assoc.
  reflexivity.
Qed.

Lemma performs_defined {A : Type} (v : option A) (a : A) (k : A -> io unit) ws :
  v = Some a -> performs (k a) ws -> performs (x <- defined v ;; k x) ws.
Proof. intros -> H b. unfold bind, defined. apply H. Qed.

Lemma performs_sendRegister reg_addr reg_value :
  performs (sendRegister reg_addr reg_value) [(u8 reg_addr, u8 reg_value)].
Proof.
  intros b. unfold sendRegister, bind, emit, encode.
  cbn [flat_map transaction fst snd app].
  rewrite <- !app_assoc. reflexivity.
Qed.

(** The PLL packer writes the eight registers from its base upwards. *)
Lemma performs_setupPLL pll mult num denom :
  exists v0 v1 v2 v3 v4 v5 v6 v7,
    performs (setupPLL pll mult num denom)
      [(u8 (u8 pll + 0), v0); (u8 (u8 pll + 1), v1); (u8 (u8 pll + 2), v2);
       (u8 (u8 pll + 3), v3); (u8 (u8 pll + 4), v4); (u8 (u8 pll + 5), v5);
       (u8 (u8 pll + 6), v6); (u8 (u8 pll + 7), v7)].
Proof.
  unfold setupPLL. do 8 eexists.
  repeat (apply (performs_seq _ _ [_]); [apply performs_sendRegister|]).
  apply performs_sendRegister.
Qed.

(** The Multisynth packer, with the bytes as the source computes them. *)
Lemma performs_setupMultisynth synth divider rDiv :
  let P1 := u32 (128 * u32 divider - 512) in
  performs (setupMultisynth synth divider rDiv)
    [(u8 (u8 synth + 0), u8 (Z.shiftr (Z.land 1 0x0000FF00) 8));
     (u8 (u8 synth + 1), u8 (Z.land 1 0x000000FF));
     (u8 (u8 synth + 2), u8 (Z.lor (Z.shiftr (Z.land P1 0x00030000) 16) (u8 rDiv)));
     (u8 (u8 synth + 3), u8 (Z.shiftr (Z.land P1 0x0000FF00) 8));
     (u8 (u8 synth + 4), u8 (Z.land P1 0x000000FF));
     (u8 (u8 synth + 5), u8 (Z.lor (Z.shiftr (Z.land 1 0x000F0000) 12)
                                   (Z.shiftr (Z.land 0 0x000F0000) 16)));
     (u8 (u8 synth + 6), u8 (Z.shiftr (Z.land 0 0x0000FF00) 8));
     (u8 (u8 synth + 7), u8 (Z.land 0 0x000000FF))].
Proof.
  intros P1. unfold setupMultisynth. fold P1.
  repeat (apply (performs_seq _ _ [_]); [apply performs_sendRegister|]).
  apply performs_sendRegister.
Qed.

(** The two guards of [select_divider] cover every frequency. *)
Lemma select_divider_total frequency :
  select_divider frequency = Some (Spec.divider frequency).
Proof.
  unfold select_divider, Spec.divider.
  destruct (Z.ltb_spec frequency 9050001) as [H1|H1];
    destruct (Z.gtb_spec frequency 9050000) as [H2|H2];
    destruct (Z.leb_spec frequency 9050000) as [H3|H3];
    try reflexivity; lia.
Qed.

Lemma locals_total frequency :
  exists v, si5351aSetFrequency_locals frequency = Some v /\
            Locals.divider v = Spec.divider frequency /\
            Locals.pllFreq v = u32 (Spec.divider frequency * frequency) /\
            Locals.mult v = u8 (Locals.pllFreq v / Si5351A_XTAL_FREQ) /\
            Locals.l v = u32 (Locals.pllFreq v mod Si5351A_XTAL_FREQ) /\
            Locals.num v = plan_num (Locals.l v) Si5351A_XTAL_FREQ /\
            Locals.denom v = 1048575.
Proof.
  unfold si5351aSetFrequency_locals. rewrite select_divider_total.
  eexists. split; [reflexivity|]. cbn [Locals.divider Locals.pllFreq Locals.mult
    Locals.l Locals.num Locals.denom]. repeat split.
Qed.

(** All register writes of one call: the PLL frame, whose bytes depend on
    the frequency, then the two Multisynth frames and the phase offsets,
    which depend on the band only. *)
Lemma performs_si5351aSetFrequency frequency :
  exists v0 v1 v2 v3 v4 v5 v6 v7,
    performs (si5351aSetFrequency frequency)
      ([(26, v0); (27, v1); (28, v2); (29, v3);
        (30, v4); (31, v5); (32, v6); (33, v7)] ++
       [(42, 0); (43, 1); (44, 0);
        (45, if u32 frequency <=? 9050000 then 60 else 20);
        (46, 0); (47, 0); (48, 0); (49, 0)] ++
       [(50, 0); (51, 1); (52, 0);
        (53, if u32 frequency <=? 9050000 then 60 else 20);
        (54, 0); (55, 0); (56, 0); (57, 0)] ++
       [(165, Spec.divider (u32 frequency))] ++ [(166, 0)]).
Proof.
  unfold si5351aSetFrequency.
  destruct (locals_total (u32 frequency)) as (v & Hv & Hd & _).
  destruct (performs_setupPLL SI_SYNTH_PLL_A (Locals.mult v) (Locals.num v)
              (Locals.denom v)) as (v0 & v1 & v2 & v3 & v4 & v5 & v6 & v7 & Hpll).
  exists v0, v1, v2, v3, v4, v5, v6, v7.
  apply (performs_defined _ v); [exact Hv|].
  apply performs_seq; [exact Hpll|].
  rewrite Hd. unfold Spec.divider.
  destruct (u32 frequency <=? 9050000).
  - apply performs_seq; [exact (performs_setupMultisynth SI_SYNTH_MS_0 124 SI_R_DIV_1)|].
    apply performs_seq; [exact (performs_setupMultisynth SI_SYNTH_MS_1 124 SI_R_DIV_1)|].
    apply performs_seq; [exact (performs_sendRegister CLK0_PHOFF 124)|].
    exact (performs_sendRegister CLK1_PHOFF 0).
  - apply performs_seq; [exact (performs_setupMultisynth SI_SYNTH_MS_0 44 SI_R_DIV_1)|].
    apply performs_seq; [exact (performs_setupMultisynth SI_SYNTH_MS_1 44 SI_R_DIV_1)|].
    apply performs_seq; [exact (performs_sendRegister CLK0_PHOFF 44)|].
    exact (performs_sendRegister CLK1_PHOFF 0).
Qed.

End Traffic.

(** * The PLL frame and the layout of the specification *)

Section RoundTrip.
Local Open Scope io_scope.

(** A masked and shifted field of a non-negative word, as sent in one
    byte. *)
Lemma field_byte P n k :
  0 <= n <= 8 -> 0 <= k ->
  u8 (Z.shiftr (Z.land P (Z.shiftl (Z.ones n) k)) k) = (P / 2 ^ k) mod 2 ^ n.
Proof.
  intros Hn Hk.
  rewrite Z.shiftr_land, Z.shiftr_shiftl_l, Z.sub_diag, Z.shiftl_0_r by lia.
  rewrite Z.land_ones, Z.shiftr_div_pow2 by lia.
  unfold u8.
  assert (0 < 2 ^ n) by (apply Z.pow_pos_nonneg; lia).
  pose proof (Z.mod_pos_bound (P / 2 ^ k) (2 ^ n) ltac:(lia)).
  assert (2 ^ n <= 2 ^ 8) by (apply Z.pow_le_mono_r; lia).
  apply Z.mod_small. lia.
Qed.

Lemma low_byte P : u8 (Z.land P 0x000000FF) = P mod 2 ^ 8.
Proof.
  change 0x000000FF with (Z.ones 8). rewrite Z.land_ones by lia.
  unfold u8. apply Z.mod_mod. discriminate.
Qed.

Lemma lor_high_nibble x : 0 <= x < 16 -> Z.lor 240 x = 240 + x.
Proof.
  intros H.
  assert (Hc : x = 0 \/ x = 1 \/ x = 2 \/ x = 3 \/ x = 4 \/ x = 5 \/ x = 6 \/
               x = 7 \/ x = 8 \/ x = 9 \/ x = 10 \/ x = 11 \/ x = 12 \/
               x = 13 \/ x = 14 \/ x = 15) by lia.
  repeat (destruct Hc as [->|Hc]; [reflexivity|]). subst x. reflexivity.
Qed.

(** The bytes of the PLL frame in terms of the packed parameters computed
    at lines 41 to 45. *)
Lemma performs_setupPLL_bytes pll mult num denom :
  let P1 := setupPLL_P1 (u8 mult) (u32 num) (u32 denom) in
  let P2 := setupPLL_P2 (u32 num) (u32 denom) in
  let P3 := u32 denom in
  performs (setupPLL pll mult num denom)
    [(u8 (u8 pll + 0), u8 (Z.shiftr (Z.land P3 0x0000FF00) 8));
     (u8 (u8 pll + 1), u8 (Z.land P3 0x000000FF));
     (u8 (u8 pll + 2), u8 (Z.shiftr (Z.land P1 0x00030000) 16));
     (u8 (u8 pll + 3), u8 (Z.shiftr (Z.land P1 0x0000FF00) 8));
     (u8 (u8 pll + 4), u8 (Z.land P1 0x000000FF));
     (u8 (u8 pll + 5), u8 (Z.lor (Z.shiftr (Z.land P3 0x000F0000) 12)
                                 (Z.shiftr (Z.land P2 0x000F0000) 16)));
     (u8 (u8 pll + 6), u8 (Z.shiftr (Z.land P2 0x0000FF00) 8));
     (u8 (u8 pll + 7), u8 (Z.land P2 0x000000FF))].
Proof.
  intros P1 P2 P3. unfold setupPLL. fold P1 P2 P3.
  repeat (apply (performs_seq _ _ [_]); [apply performs_sendRegister|]).
  apply performs_sendRegister.
Qed.

(** Apart from the floor of lines 41 and 43, the packer and the layout
    agree: whenever the single-precision floor is the exact one, the eight
    bytes unpack to the parameters of the specification. *)
Lemma pll_round_trip_when_floor_exact mult num :
  15 <= mult <= 90 -> 0 <= num <= 1048574 ->
  pll_q num 1048575 = 128 * num / 1048575 ->
  pll_round_trip mult num 1048575
  = Some (Spec.P1 mult num 1048575, Spec.P2 num 1048575, Spec.P3 1048575).
Proof.
  intros Hmult Hnum Hq.
  pose proof (performs_setupPLL_bytes SI_SYNTH_PLL_A mult num 1048575) as Hp.
  cbv zeta in Hp.
  assert (Eu8 : u8 mult = mult) by (unfold u8; apply Z.mod_small; change (2 ^ 8) with 256; lia).
  assert (Eu32 : u32 num = num)
    by (unfold u32; apply Z.mod_small; change (2 ^ 32) with 4294967296; lia).
  change (u32 1048575) with 1048575 in Hp. rewrite Eu8, Eu32 in Hp.
  set (q := 128 * num / 1048575) in *.
  assert (Hqb : 0 <= q <= 127).
  { unfold q. split; [apply Z.div_pos; lia|].
    apply Z.lt_succ_r, Z.div_lt_upper_bound; lia. }
  pose proof (Z.div_mod (128 * num) 1048575 ltac:(lia)) as Hdm.
  pose proof (Z.mod_pos_bound (128 * num) 1048575 ltac:(lia)) as Hmod.
  fold q in Hdm.
  assert (E1 : setupPLL_P1 mult num 1048575 = 128 * mult + q - 512).
  { unfold setupPLL_P1. rewrite Hq. unfold u32. apply Z.mod_small.
    change (2 ^ 32) with 4294967296. lia. }
  assert (E2 : setupPLL_P2 num 1048575 = 128 * num - 1048575 * q).
  { unfold setupPLL_P2. rewrite Hq. unfold u32. apply Z.mod_small.
    change (2 ^ 32) with 4294967296. lia. }
  rewrite E1, E2 in Hp.
  set (P1 := 128 * mult + q - 512) in *. set (P2 := 128 * num - 1048575 * q) in *.
  assert (HP1 : 0 <= P1 < 2 ^ 18) by (change (2 ^ 18) with 262144; unfold P1; lia).
  assert (HP2 : 0 <= P2 < 2 ^ 20) by (change (2 ^ 20) with 1048576; unfold P2; lia).
  change 0x00030000 with (Z.shiftl (Z.ones 2) 16) in Hp.
  change 0x0000FF00 with (Z.shiftl (Z.ones 8) 8) in Hp.
  change 0x000F0000 with (Z.shiftl (Z.ones 4) 16) in Hp.
  rewrite !field_byte, !low_byte in Hp by lia.
  change (u8 (Z.land 1048575 (Z.ones 8))) with 255 in Hp.
  change ((1048575 / 2 ^ 8) mod 2 ^ 8) with 255 in Hp.
  assert (E5 : u8 (Z.lor (Z.shiftr (Z.land 1048575 (Z.shiftl (Z.ones 4) 16)) 12)
                         (Z.shiftr (Z.land P2 (Z.shiftl (Z.ones 4) 16)) 16))
               = 240 + (P2 / 2 ^ 16) mod 2 ^ 4).
  { pose proof (field_byte P2 4 16 ltac:(lia) ltac:(lia)) as Hf.
    pose proof (Z.mod_pos_bound (P2 / 2 ^ 16) (2 ^ 4) ltac:(reflexivity)) as Hb.
    change (2 ^ 4) with 16 in *.
    assert (Hu : Z.shiftr (Z.land P2 (Z.shiftl (Z.ones 4) 16)) 16 = (P2 / 2 ^ 16) mod 16).
    { rewrite <- Hf. unfold u8. symmetry. apply Z.mod_small.
      rewrite Z.shiftr_land, Z.shiftr_shiftl_l, Z.sub_diag, Z.shiftl_0_r by lia.
      rewrite Z.land_ones by lia. change (2 ^ 4) with 16. change (2 ^ 8) with 256.
      pose proof (Z.mod_pos_bound (Z.shiftr P2 16) 16 ltac:(lia)). lia. }
    rewrite Hu.
    change (Z.shiftr (Z.land 1048575 (Z.shiftl (Z.ones 4) 16)) 12) with 240.
    rewrite lor_high_nibble by lia.
    unfold u8. apply Z.mod_small. change (2 ^ 8) with 256. lia. }
  rewrite E5 in Hp.
  apply performs_writes_of in Hp.
  unfold pll_round_trip. rewrite Hp.
  change (frame_at SI_SYNTH_PLL_A ?ws) with
    [255; 255; (P1 / 2 ^ 16) mod 2 ^ 2; (P1 / 2 ^ 8) mod 2 ^ 8; P1 mod 2 ^ 8;
     240 + (P2 / 2 ^ 16) mod 2 ^ 4; (P2 / 2 ^ 8) mod 2 ^ 8; P2 mod 2 ^ 8].
  unfold Spec.unpack, Spec.bits, Spec.P1, Spec.P2, Spec.P3. fold q. fold P1. fold P2.
  change (1 - 0 + 1) with 2. change (3 - 0 + 1) with 4. change (7 - 4 + 1) with 4.
  change (2 ^ 0) with 1. change (2 ^ 2) with 4. change (2 ^ 4) with 16.
  change (2 ^ 8) with 256. change (2 ^ 16) with 65536.
  change (2 ^ 18) with 262144 in HP1. change (2 ^ 20) with 1048576 in HP2.
  rewrite !Z.div_1_r.
  clearbody P1 P2. clear - HP1 HP2.
  f_equal. f_equal; [f_equal|]; Z.div_mod_to_equations; lia.
Qed.
End RoundTrip.

(** * Properties of the planner and of its register traffic *)

Section Claims.
Local Open Scope io_scope.

Lemma in_range_u32 F : 3500000 <= F <= 30000000 -> u32 F = F.
Proof. intros H. unfold u32. apply Z.mod_small. change (2 ^ 32) with 4294967296. lia. Qed.

(** The PLL frequency of an in-range request does not wrap. *)
Lemma in_range_pllFreq F :
  3500000 <= F <= 30000000 ->
  u32 (Spec.divider F * F) = Spec.divider F * F /\
  15 <= Spec.divider F * F / Si5351A_XTAL_FREQ <= 52.
Proof.
  intros H. unfold u32, Spec.divider, Si5351A_XTAL_FREQ.
  change (2 ^ 32) with 4294967296.
  destruct (Z.leb_spec F 9050000) as [Hb|Hb].
  - split; [apply Z.mod_small; lia|].
    split; [apply Z.div_le_lower_bound; lia|].
    apply Z.lt_succ_r, Z.div_lt_upper_bound; lia.
  - split; [apply Z.mod_small; lia|].
    split; [apply Z.div_le_lower_bound; lia|].
    apply Z.lt_succ_r, Z.div_lt_upper_bound; lia.
Qed.

(** The locals of an in-range request, without wrap-around. *)
Lemma in_range_locals F :
  3500000 <= F <= 30000000 ->
  exists v,
    si5351aSetFrequency_locals F = Some v /\
    Locals.divider v = Spec.divider F /\
    Locals.pllFreq v = Locals.divider v * F /\
    15 <= Locals.mult v <= 52 /\
    Locals.mult v = Locals.pllFreq v / Si5351A_XTAL_FREQ /\
    Locals.l v = Locals.pllFreq v mod Si5351A_XTAL_FREQ /\
    Spec.num (Locals.l v) - 1 <= Locals.num v <= Spec.num (Locals.l v) + 1 /\
    0 <= Locals.num v <= 1048575 /\
    Locals.denom v = 1048575.
Proof.
  intros HF.
  destruct (locals_total F) as (v & Hv & Hd & Hp & Hm & Hl & Hn & Hden).
  destruct (in_range_pllFreq F HF) as [Hwrap Hq].
  rewrite Hwrap in Hp.
  pose proof (Z.mod_pos_bound (Locals.pllFreq v) Si5351A_XTAL_FREQ ltac:(reflexivity)) as Hmod.
  assert (Hl' : Locals.l v = Locals.pllFreq v mod Si5351A_XTAL_FREQ).
  { rewrite Hl. unfold u32. apply Z.mod_small.
    unfold Si5351A_XTAL_FREQ in *. change (2 ^ 32) with 4294967296. lia. }
  assert (Hm' : Locals.mult v = Locals.pllFreq v / Si5351A_XTAL_FREQ).
  { rewrite Hm, Hp. unfold u8. apply Z.mod_small. change (2 ^ 8) with 256. lia. }
  pose proof (plan_num_close (Locals.l v) ltac:(rewrite Hl'; exact Hmod)) as Hclose.
  rewrite <- Hn in Hclose.
  assert (Hfloor : 0 <= Spec.num (Locals.l v) <= 1048574).
  { unfold Spec.num. rewrite Hl'. unfold Si5351A_XTAL_FREQ in *. split.
    - apply Z.div_pos; lia.
    - apply Z.lt_succ_r, Z.div_lt_upper_bound; lia. }
  assert (Hnum0 : 0 <= Locals.num v).
  { rewrite Hn. unfold plan_num, Float32.to_ulong, u32.
    apply Z.mod_pos_bound. reflexivity. }
  exists v. split; [exact Hv|]. split; [exact Hd|].
  split; [rewrite Hp, Hd; reflexivity|].
  split; [rewrite Hm', Hp; exact Hq|].
  split; [exact Hm'|]. split; [exact Hl'|]. split; [exact Hclose|].
  split; [lia|exact Hden].
Qed.

(** C1. Band selection: for every frequency [F] the planner selects
    [divider = 124] when [F <= 9,050,000] and [divider = 44] when
    [F > 9,050,000]; the boundary [F = 9,050,000] falls in the 124 band. *)
Theorem band_selection (F : Z) :
  select_divider F = Some (if F <=? 9050000 then 124 else 44) /\
  select_divider 9050000 = Some 124 /\
  exists v, si5351aSetFrequency_locals F = Some v /\
            Locals.divider v = (if F <=? 9050000 then 124 else 44).
Proof.
  split; [apply select_divider_total|]. split; [reflexivity|].
  destruct (locals_total F) as (v & Hv & Hd & _).
  exists v. split; [exact Hv|exact Hd].
Qed.

(** C2 as stated fails: it is not true that for every in-range frequency
    the numerator handed to the PLL packer is the exact floor of
    [remainder * 1048575 / xtalFreq].  At [F = 4,200,000] the remainder is
    20,817,660, whose exact floor is 873,185, and the single-precision
    computation of lines 24 to 27 yields 873,186. *)
Lemma num_is_not_always_the_exact_floor :
  ~ (forall F v,
        3500000 <= F <= 30000000 ->
        si5351aSetFrequency_locals F = Some v ->
        Locals.num v
        = Spec.num ((Locals.divider v * F) mod Si5351A_XTAL_FREQ) /\
        Locals.denom v = 1048575).
Proof.
  intros H.
  destruct (H 4200000 (Locals.make 124 520800000 20 20817660 873186 1048575))
    as [Hnum _]; [lia|reflexivity|].
  vm_compute in Hnum. discriminate.
Qed.

(** C2, amended.  For every frequency [F] in [3.5 MHz, 30 MHz], with
    [pllFreq = divider * F] and [remainder = pllFreq mod xtalFreq], the
    numerator handed to the PLL packer is the truncated single-precision
    value of [remainder * 1048575 / xtalFreq]; it differs from the exact
    floor by at most one, and [denom] is 1048575. *)
Theorem num_within_one_of_exact_floor (F : Z) :
  3500000 <= F <= 30000000 ->
  exists v,
    si5351aSetFrequency_locals F = Some v /\
    Locals.pllFreq v = Locals.divider v * F /\
    Locals.l v = Locals.pllFreq v mod Si5351A_XTAL_FREQ /\
    Locals.num v = plan_num (Locals.l v) Si5351A_XTAL_FREQ /\
    Spec.num (Locals.l v) - 1 <= Locals.num v <= Spec.num (Locals.l v) + 1 /\
    Locals.denom v = 1048575.
Proof.
  intros HF.
  destruct (in_range_locals F HF) as (v & Hv & _ & Hp & _ & _ & Hl & Hc & _ & Hden).
  destruct (locals_total F) as (v' & Hv' & _ & _ & _ & _ & Hn & _).
  rewrite Hv in Hv'. injection Hv' as <-.
  exists v. repeat split; try assumption; apply Hc.
Qed.

Lemma num_within_one_of_exact_floor_witness :
  3500000 <= 4200000 <= 30000000 /\
  exists v,
    si5351aSetFrequency_locals 4200000 = Some v /\
    Locals.pllFreq v = Locals.divider v * 4200000 /\
    Locals.l v = Locals.pllFreq v mod Si5351A_XTAL_FREQ /\
    Locals.num v = plan_num (Locals.l v) Si5351A_XTAL_FREQ /\
    Spec.num (Locals.l v) - 1 <= Locals.num v <= Spec.num (Locals.l v) + 1 /\
    Locals.denom v = 1048575.
Proof.
  split; [lia|apply (num_within_one_of_exact_floor 4200000); lia].
Defined.

(** C3 (defect of the source).  The round trip of the PLL packer fails at
    [mult = 24], [num = 1040383], [denom = 1048575], inside the stated
    domain.  [128 * num / denom] is [127 - 1/1048575], of floor 126; in
    single precision [num / denom] rounds to [127/128], so lines 41 and 43
    obtain 127.  The bytes written unpack to [P1 = 2687] instead of 2686
    and to [P2 = 1048575] (the low 20 bits of [-1] in 32-bit unsigned
    arithmetic) instead of 1048574.  [si5351aSetFrequency 14199605] calls
    the packer with exactly these arguments. *)
Theorem pll_round_trip_fails_at_rounding_hazard :
  writes_of (setupPLL SI_SYNTH_PLL_A 24 1040383 1048575)
  = Some [(26, 255); (27, 255); (28, 0); (29, 10);
          (30, 127); (31, 255); (32, 255); (33, 255)] /\
  pll_q 1040383 1048575 = 127 /\
  128 * 1040383 / 1048575 = 126 /\
  pll_round_trip 24 1040383 1048575 = Some (2687, 1048575, 1048575) /\
  (Spec.P1 24 1040383 1048575, Spec.P2 1040383 1048575, Spec.P3 1048575)
  = (2686, 1048574, 1048575) /\
  si5351aSetFrequency_locals 14199605
  = Some (Locals.make 44 624782620 24 24803812 1040383 1048575) /\
  option_map (frame_at SI_SYNTH_PLL_A) (writes_of (si5351aSetFrequency 14199605))
  = Some [255; 255; 0; 10; 127; 255; 255; 255].
Proof. repeat split; vm_compute; reflexivity. Qed.

(** The two other numerators of the domain at which the single-precision
    floor of lines 41 and 43 is one too large. *)
Lemma pll_q_other_hazards :
  pll_q 1032191 1048575 = 126 /\ 128 * 1032191 / 1048575 = 125 /\
  pll_q 1023999 1048575 = 125 /\ 128 * 1023999 / 1048575 = 124.
Proof. repeat split; vm_compute; reflexivity. Qed.

(** C4. Quadrature phase offsets: for every frequency, one call writes
    register 165 (CLK0 phase offset) once, with the selected divider, which
    is 44 or 124, and register 166 (CLK1 phase offset) once, with 0; bit 7
    of the byte written to register 165 is clear. *)
Theorem phase_offset_writes (F : Z) :
  exists v ws,
    si5351aSetFrequency_locals (u32 F) = Some v /\
    writes_of (si5351aSetFrequency F) = Some ws /\
    (Locals.divider v = 44 \/ Locals.divider v = 124) /\
    written_to CLK0_PHOFF ws = [Locals.divider v] /\
    written_to CLK1_PHOFF ws = [0] /\
    Locals.divider v < 128 /\
    Z.testbit (Locals.divider v) 7 = false.
Proof.
  destruct (locals_total (u32 F)) as (v & Hv & Hd & _).
  destruct (performs_si5351aSetFrequency F)
    as (v0 & v1 & v2 & v3 & v4 & v5 & v6 & v7 & Hp).
  apply performs_writes_of in Hp.
  exists v. eexists. split; [exact Hv|]. split; [exact Hp|].
  rewrite Hd. unfold Spec.divider.
  destruct (u32 F <=? 9050000); repeat split; (right + left + lia + idtac); reflexivity.
Qed.

(** C5. Multisynth frames: for every [F] in [3.5 MHz, 9.05 MHz] the bytes
    written at registers 42..49 are the integer-mode frame ([P1 = 128 *
    divider - 512], [P2 = 0], [P3 = 1]) of divider 124 with rDiv = /1; for
    every [F] in (9.05 MHz, 30 MHz] they are that of divider 44; and the
    frame written at 50..57 is byte for byte the one written at 42..49. *)
Theorem multisynth_frames (F : Z) :
  3500000 <= F <= 30000000 ->
  exists ws,
    writes_of (si5351aSetFrequency F) = Some ws /\
    frame_at SI_SYNTH_MS_0 ws
    = Spec.ms_frame (if F <=? 9050000 then 124 else 44) SI_R_DIV_1 /\
    frame_at SI_SYNTH_MS_1 ws = frame_at SI_SYNTH_MS_0 ws.
Proof.
  intros HF.
  destruct (performs_si5351aSetFrequency F)
    as (v0 & v1 & v2 & v3 & v4 & v5 & v6 & v7 & Hp).
  apply performs_writes_of in Hp. rewrite (in_range_u32 F HF) in Hp.
  eexists. split; [exact Hp|].
  destruct (F <=? 9050000); split; reflexivity.
Qed.

Lemma multisynth_frames_witness :
  3500000 <= 7100000 <= 30000000 /\
  exists ws,
    writes_of (si5351aSetFrequency 7100000) = Some ws /\
    frame_at SI_SYNTH_MS_0 ws
    = Spec.ms_frame (if 7100000 <=? 9050000 then 124 else 44) SI_R_DIV_1 /\
    frame_at SI_SYNTH_MS_1 ws = frame_at SI_SYNTH_MS_0 ws.
Proof.
  split; [lia|apply (multisynth_frames 7100000); lia].
Defined.

(** C6. Write ordering: for every frequency, the register writes of one
    call address PLL A (26..33), then Multisynth 0 (42..49), then
    Multisynth 1 (50..57), then the CLK0 phase offset (165), then the CLK1
    phase offset (166), and nothing else. *)
Theorem write_order (F : Z) :
  exists ws,
    writes_of (si5351aSetFrequency F) = Some ws /\
    map fst ws
    = [26; 27; 28; 29; 30; 31; 32; 33] ++
      [42; 43; 44; 45; 46; 47; 48; 49] ++
      [50; 51; 52; 53; 54; 55; 56; 57] ++
      [165] ++ [166].
Proof.
  destruct (performs_si5351aSetFrequency F)
    as (v0 & v1 & v2 & v3 & v4 & v5 & v6 & v7 & Hp).
  apply performs_writes_of in Hp.
  eexists. split; [exact Hp|]. reflexivity.
Qed.

(** C7. Multiplier range: for every [F] in the supported range
    [3.5 MHz, 30 MHz], the planned fractional multiplier
    [mult + num / denom] lies in [15.0, 90.0]. *)
Theorem multiplier_in_range (F : Z) :
  3500000 <= F <= 30000000 ->
  exists v,
    si5351aSetFrequency_locals F = Some v /\
    (15 <= IZR (Locals.mult v) + IZR (Locals.num v) / IZR (Locals.denom v)
     <= 90)%R.
Proof.
  intros HF.
  destruct (in_range_locals F HF) as (v & Hv & _ & _ & Hm & _ & _ & _ & Hn & Hden).
  exists v. split; [exact Hv|]. rewrite Hden.
  assert (15 <= IZR (Locals.mult v) <= 52)%R by (split; apply IZR_le; lia).
  assert (0 <= IZR (Locals.num v) <= 1048575)%R by (split; apply IZR_le; lia).
  lra.
Qed.

Lemma multiplier_in_range_witness :
  3500000 <= 7100000 <= 30000000 /\
  exists v,
    si5351aSetFrequency_locals 7100000 = Some v /\
    (15 <= IZR (Locals.mult v) + IZR (Locals.num v) / IZR (Locals.denom v)
     <= 90)%R.
Proof.
  split; [lia|apply (multiplier_in_range 7100000); lia].
Defined.

(** C8 as stated fails: for [F = 7,100,000] the locals are not
    [divider = 124], [pllFreq = 880,400,000], [mult = 35],
    [remainder = 19,730,905], [num = 827,532], [denom = 1,048,575]:
    [880,400,000 mod 24,999,117] is 5,430,905. *)
Lemma worked_example_S1_as_stated_fails :
  si5351aSetFrequency_locals 7100000
  <> Some (Locals.make 124 880400000 35 19730905 827532 1048575) /\
  880400000 mod Si5351A_XTAL_FREQ <> 19730905.
Proof. split; vm_compute; discriminate. Qed.

(** C8, amended.  For [F = 7,100,000] the planner computes
    [divider = 124], [pllFreq = 880,400,000], [mult = 35],
    [remainder = 5,430,905], [num = 227,796] and [denom = 1,048,575]. *)
Theorem worked_example_S1 :
  si5351aSetFrequency_locals 7100000
  = Some (Locals.make 124 880400000 35 5430905 227796 1048575).
Proof. vm_compute. reflexivity. Qed.

(** C9. Small retune: of the two successive calls
    [si5351aSetFrequency 7100000] and [si5351aSetFrequency 7100010], the
    second writes to registers 26..33 at least one byte that differs from
    the first call's (registers 31 and 32), and the bytes written to
    registers 42..57 are the same in both calls. *)
Theorem small_retune :
  exists ws1 ws2,
    writes_of (si5351aSetFrequency 7100000) = Some ws1 /\
    writes_of (si5351aSetFrequency 7100010) = Some ws2 /\
    writes_of (si5351aSetFrequency 7100000 ;; si5351aSetFrequency 7100010)
    = Some (ws1 ++ ws2) /\
    (exists r, 26 <= r <= 33 /\ written_to r ws1 <> written_to r ws2) /\
    frame_at SI_SYNTH_PLL_A ws1 = [255; 255; 0; 15; 155; 252; 234; 27] /\
    frame_at SI_SYNTH_PLL_A ws2 = [255; 255; 0; 15; 155; 253; 4; 27] /\
    frame_at SI_SYNTH_MS_0 ws1 = frame_at SI_SYNTH_MS_0 ws2 /\
    frame_at SI_SYNTH_MS_1 ws1 = frame_at SI_SYNTH_MS_1 ws2.
Proof.
  do 2 eexists.
  split; [vm_compute; reflexivity|]. split; [vm_compute; reflexivity|].
  split; [vm_compute; reflexivity|].
  split; [exists 31; split; [lia|vm_compute; discriminate]|].
  do 3 (split; [vm_compute; reflexivity|]).
  vm_compute; reflexivity.
Qed.

(** C10. The divider is assigned before it is used: for every frequency,
    at least one of the two guards [frequency < 9050001] and
    [frequency > 9050000] holds, so [divider] has a value when line 21
    reads it, and the call runs to completion. *)
Theorem divider_assigned_before_use (frequency : Z) :
  (frequency < 9050001 \/ frequency > 9050000) /\
  (exists divider, select_divider frequency = Some divider) /\
  (exists v, si5351aSetFrequency_locals frequency = Some v) /\
  (exists b, run (si5351aSetFrequency frequency) = Some b).
Proof.
  split; [lia|]. split; [eexists; apply select_divider_total|].
  split; [destruct (locals_total frequency) as (v & Hv & _); exists v; exact Hv|].
  destruct (performs_si5351aSetFrequency frequency)
    as (v0 & v1 & v2 & v3 & v4 & v5 & v6 & v7 & Hp).
  unfold run. rewrite (Hp []). eexists. reflexivity.
Qed.

End Claims.

(** * Further properties of the packers and of the planner *)

(** ** Checking a predicate on a range of integers *)

Section Exhaustive.

Lemma scan_iter p lo (n : nat) :
  fst (Nat.iter n (scan_step p) (lo, true)) = lo + Z.of_nat n /\
  (snd (Nat.iter n (scan_step p) (lo, true)) = true ->
   forall k, lo <= k < lo + Z.of_nat n -> p k = true).
Proof.
  induction n as [|n [IHf IHs]].
  - simpl. split; [lia|]. intros _ k Hk. lia.
  - rewrite Nat2Z.inj_succ, Nat.iter_succ. unfold scan_step at 1 3. cbn [fst snd].
    split; [rewrite IHf; lia|].
    destruct (snd (Nat.iter n (scan_step p) (lo, true))) eqn:Es; [|discriminate].
    intros Hp k Hk.
    destruct (Z.eq_dec k (lo + Z.of_nat n)) as [->|Hne].
    + rewrite IHf in Hp. exact Hp.
    + apply IHs; [reflexivity|lia].
Qed.

Lemma scan_sound p lo n :
  scan p lo n = true -> forall k, lo <= k < lo + Zpos n -> p k = true.
Proof.
  unfold scan. rewrite Pos2Nat.inj_iter. intros H k Hk.
  apply (proj2 (scan_iter p lo (Pos.to_nat n)) H).
  rewrite positive_nat_Z. exact Hk.
Qed.

(** The numerator of lines 24 to 27 at the remainders 24,999,094 to
    24,999,114, where the exact quotient is above 1048574 - 1. *)
Lemma plan_num_top_scan : scan plan_num_below_denom 24999094 21 = true.
Proof. vm_compute. reflexivity. Qed.

End Exhaustive.

(** ** The single-precision floor of lines 41 and 43 *)

Section HalfUlp.
Import Float32 Float32Facts.

Lemma bpow_le a b : a <= b -> (bpow a <= bpow b)%R.
Proof.
  intros H. replace b with (a + (b - a)) by lia.
  rewrite bpow_add, (bpow_IZR (b - a)) by lia.
  assert (1 <= IZR (2 ^ (b - a)))%R.
  { apply IZR_le. assert (0 < 2 ^ (b - a)) by (apply Z.pow_pos_nonneg; lia). lia. }
  pose proof (bpow_pos a). nra.
Qed.

Lemma bpow_lt_inv a b : (bpow a < bpow b)%R -> a < b.
Proof.
  intros H. destruct (Z_lt_le_dec a b) as [Hlt|Hge]; [exact Hlt|].
  pose proof (bpow_le b a Hge). lra.
Qed.

(** Rounding in the normal range, with the absolute error in units of the
    last place: the result is a multiple of [2^e'], [e'] being the exponent
    of the last place of the exact value, and lies within half of [2^e']. *)
Lemma binary_round_aux_ulp sx mx ex lx x :
  0 < mx -> 24 <= Zdigits2 mx ->
  -149 <= ex + Zdigits2 mx - 24 < 104 ->
  located x (shr_record_of_loc mx lx) ->
  exists m e j,
    binary_round_aux prec emax sx mx ex lx = S754_finite sx m e /\
    F2R (Zpos m) e = (IZR j * bpow (ex + Zdigits2 mx - 24))%R /\
    (Rabs (IZR j * bpow (ex + Zdigits2 mx - 24) - x * bpow ex)
     <= / 2 * bpow (ex + Zdigits2 mx - 24))%R /\
    (bpow (ex + Zdigits2 mx - 1) <= x * bpow ex < bpow (ex + Zdigits2 mx))%R.
Proof.
  intros Hmx Hd Hrange Hloc.
  pose proof (Zdigits2_bounds mx Hmx) as [Dlo Dhi].
  set (d := Zdigits2 mx) in *. set (n := d - 24).
  assert (Hx : (bpow (d - 1) <= x < bpow d)%R).
  { destruct Hloc as (_ & Hx & _). rewrite shr_m_of_loc in Hx.
    assert (bpow (d - 1) <= IZR mx)%R by (apply IZR_bpow_le; lia).
    assert (IZR (mx + 1) <= bpow d)%R.
    { rewrite bpow_IZR by lia. apply IZR_le. lia. }
    rewrite plus_IZR in *. lra. }
  assert (HX : (bpow (ex + d - 1) <= x * bpow ex < bpow (ex + d))%R).
  { replace (ex + d - 1) with ((d - 1) + ex) by lia.
    replace (ex + d) with (d + ex) by lia.
    rewrite !bpow_add. pose proof (bpow_pos ex).
    split; [apply Rmult_le_compat_r; lra|apply Rmult_lt_compat_r; lra]. }
  unfold binary_round_aux, shr_fexp. fold d.
  rewrite fexp_normal by lia.
  replace (d + ex - 24 - ex) with n by (unfold n; lia).
  destruct (located_shr (shr_record_of_loc mx lx) ex n x) as [He' Hloc'];
    [unfold n; lia|exact Hloc|].
  destruct (shr (shr_record_of_loc mx lx) ex n) as [mrs' e'].
  cbn [fst snd] in He', Hloc'. subst e'.
  replace (ex + d - 24) with (ex + n) by (unfold n; lia).
  set (x' := (x * bpow (- n))%R) in *.
  assert (Hx' : (bpow 23 <= x' < bpow 24)%R).
  { unfold x'.
    assert (E23 : bpow 23 = (bpow (d - 1) * bpow (- n))%R)
      by (rewrite <- bpow_add; f_equal; unfold n; lia).
    assert (E24 : bpow 24 = (bpow d * bpow (- n))%R)
      by (rewrite <- bpow_add; f_equal; unfold n; lia).
    rewrite E23, E24. pose proof (bpow_pos (- n)).
    split; [apply Rmult_le_compat_r; lra|apply Rmult_lt_compat_r; lra]. }
  pose proof (located_round_nearest_even x' mrs' Hloc') as [Hz Herr].
  set (z := round_nearest_even (shr_m mrs') (loc_of_shr_record mrs')) in *.
  assert (Hm' : 2 ^ 23 <= shr_m mrs' < 2 ^ 24).
  { destruct Hloc' as (_ & Hm' & _).
    rewrite !bpow_IZR in Hx' by lia.
    split.
    - assert (IZR (2 ^ 23) < IZR (shr_m mrs' + 1))%R by (rewrite plus_IZR; lra).
      apply lt_IZR in H. lia.
    - apply lt_IZR. lra. }
  assert (Hxe : (x * bpow ex = x' * bpow (ex + n))%R).
  { unfold x'. rewrite Rmult_assoc, <- bpow_add. f_equal. f_equal. lia. }
  assert (Habs : (Rabs (IZR z * bpow (ex + n) - x * bpow ex) <= / 2 * bpow (ex + n))%R).
  { rewrite Hxe, <- Rmult_minus_distr_r.
    rewrite Rabs_mult, (Rabs_pos_eq (bpow _)) by (pose proof (bpow_pos (ex + n)); lra).
    apply Rmult_le_compat_r; [pose proof (bpow_pos (ex + n)); lra|exact Herr]. }
  destruct (Z.eq_dec z (2 ^ 24)) as [Ez|Ez].
  - rewrite Ez. change (Zdigits2 (2 ^ 24)) with 25.
    rewrite fexp_normal by (unfold n; lia).
    replace (25 + (ex + n) - 24 - (ex + n)) with 1 by lia.
    cbn [shr SpecFloat.iter_pos shr_1 shr_m]. cbv iota beta.
    replace (ex + n + 1 <=? emax - prec) with true
      by (symmetry; apply Z.leb_le; unfold emax, prec, n; lia).
    exists 8388608%positive, (ex + n + 1), z.
    split; [reflexivity|]. split; [|split; [exact Habs|exact HX]].
    unfold F2R. rewrite bpow_add, bpow_1, Ez.
    change (2 ^ 24) with (8388608 * 2). rewrite mult_IZR. ring.
  - assert (Hz24 : 2 ^ 23 <= z < 2 ^ 24) by lia.
    replace (Zdigits2 z) with 24
      by (symmetry; apply Zdigits2_unique; [lia|exact Hz24]).
    rewrite fexp_normal by (unfold n; lia).
    replace (24 + (ex + n) - 24 - (ex + n)) with 0 by lia.
    cbn [shr shr_m]. cbv iota beta.
    destruct z as [|pz|pz]; try lia.
    replace (ex + n <=? emax - prec) with true
      by (symmetry; apply Z.leb_le; unfold emax, prec, n; lia).
    exists pz, (ex + n), (Zpos pz).
    split; [reflexivity|]. split; [reflexivity|]. split; [exact Habs|exact HX].
Qed.

End HalfUlp.

Section ExactOps.
Import Float32 Float32Facts.

(** A rounded value that is a multiple of the last place of an exact value
    which is itself such a multiple is the exact value. *)
Lemma half_ulp_exact j k B :
  (0 < B)%R -> (Rabs (IZR j * B - IZR k * B) <= / 2 * B)%R -> j = k.
Proof.
  intros HB H.
  rewrite <- Rmult_minus_distr_r, Rabs_mult, (Rabs_pos_eq B) in H by lra.
  assert (H1 : (Rabs (IZR j - IZR k) <= / 2)%R).
  { apply Rmult_le_reg_r with B; [exact HB|exact H]. }
  rewrite <- minus_IZR in H1.
  pose proof (Rle_abs (IZR (j - k))) as Hp.
  pose proof (Rle_abs (- IZR (j - k))) as Hn. rewrite Rabs_Ropp in Hn.
  assert (- 1 < j - k < 1).
  { split; apply lt_IZR; lra. }
  lia.
Qed.

(** Conversion of an integer below [2^24] is exact. *)
Lemma of_Z_exact n :
  0 < n < 2 ^ 24 ->
  exists m e,
    of_Z n = S754_finite false m e /\
    2 ^ 23 <= Zpos m < 2 ^ 24 /\
    -23 <= e <= 0 /\
    F2R (Zpos m) e = IZR n.
Proof.
  intros [Hpos Hlt]. destruct n as [|p|p]; try lia.
  unfold of_Z, binary_normalize, binary_round.
  pose proof (digits2_pos_bounds p) as [Dlo Dhi].
  set (d := Zpos (digits2_pos p)) in *.
  assert (Hd : 1 <= d <= 24).
  { split; [unfold d; lia|].
    assert (d - 1 < 24) by (apply pow2_lt_inv; lia). lia. }
  rewrite fexp_normal by lia.
  unfold shl_align.
  assert (Hgen : forall M ex,
             Zdigits2 (Zpos M) = 24 -> -23 <= ex <= 0 ->
             (IZR (Zpos M) * bpow ex = IZR (Zpos p))%R ->
             exists m e,
               binary_round_aux prec emax false (Zpos M) ex loc_Exact
               = S754_finite false m e /\
               2 ^ 23 <= Zpos m < 2 ^ 24 /\ -23 <= e <= 0 /\
               F2R (Zpos m) e = IZR (Zpos p)).
  { intros M ex HM Hex HV.
    destruct (binary_round_aux_spec false (Zpos M) ex loc_Exact (IZR (Zpos M)))
      as (m & e & Hr & Hm & He & _);
      [lia|rewrite HM; lia|rewrite HM; lia|apply located_exact; lia|].
    destruct (binary_round_aux_ulp false (Zpos M) ex loc_Exact (IZR (Zpos M)))
      as (m' & e' & j & Hr' & Hj & Habs & _);
      [lia|rewrite HM; lia|rewrite HM; lia|apply located_exact; lia|].
    rewrite Hr in Hr'. injection Hr' as <- <-.
    rewrite HM in *. replace (ex + 24 - 24) with ex in * by lia.
    apply half_ulp_exact in Habs; [|apply bpow_pos]. subst j.
    exists m, e. split; [exact Hr|]. split; [exact Hm|].
    split; [|rewrite Hj; exact HV].
    (* the exponent: the value is that of a 24-digit mantissa at [ex] *)
    destruct (Z.eq_dec e ex) as [->|Hne]; [lia|exfalso].
    assert (Ee : e = ex + 1) by lia. subst e.
    unfold F2R in Hj. rewrite bpow_add, bpow_1 in Hj.
    pose proof (bpow_pos ex).
    assert (IZR (Zpos m) * 2 = IZR (Zpos M))%R by nra.
    rewrite <- (mult_IZR _ 2) in H0. apply eq_IZR in H0.
    pose proof (Zdigits2_bounds (Zpos M) ltac:(lia)) as HMb. rewrite HM in HMb.
    change (24 - 1) with 23 in HMb. lia. }
  destruct (Z_lt_le_dec d 24) as [Hs|Hs].
  - destruct (d + 0 - 24 - 0) as [|k|k] eqn:Ek; try lia.
    assert (Hk : Zpos k = 24 - d) by lia.
    apply Hgen.
    + apply Zdigits2_unique; [lia|]. rewrite iter_xO, Hk.
      assert (E1 : 2 ^ (24 - 1) = 2 ^ (d - 1) * 2 ^ (24 - d))
        by (rewrite <- Z.pow_add_r by lia; f_equal; lia).
      assert (E2 : 2 ^ 24 = 2 ^ d * 2 ^ (24 - d))
        by (rewrite <- Z.pow_add_r by lia; f_equal; lia).
      rewrite E1, E2.
      assert (0 < 2 ^ (24 - d)) by (apply Z.pow_pos_nonneg; lia).
      split; [apply Z.mul_le_mono_nonneg_r; lia|apply Z.mul_lt_mono_pos_r; lia].
    + lia.
    + rewrite iter_xO, mult_IZR, Rmult_assoc, <- bpow_IZR, <- bpow_add by lia.
      replace (Zpos k + (d + 0 - 24)) with 0 by lia. rewrite bpow_0. ring.
  - assert (Ed : d = 24) by lia.
    replace (d + 0 - 24 - 0) with 0 by lia.
    apply Hgen.
    + exact Ed.
    + lia.
    + rewrite bpow_0. ring.
Qed.

Lemma of_Z_128 : of_Z 128 = S754_finite false 8388608 (-16).
Proof. reflexivity. Qed.

(** Multiplication by 128 is exact. *)
Lemma mul_128_exact m e :
  2 ^ 23 <= Zpos m < 2 ^ 24 -> -156 <= e <= 96 ->
  exists m' e',
    mul (of_Z 128) (S754_finite false m e) = S754_finite false m' e' /\
    F2R (Zpos m') e' = (128 * F2R (Zpos m) e)%R.
Proof.
  intros Hm He. rewrite of_Z_128. unfold mul, SFmul. cbn [xorb].
  rewrite pow2_23, pow2_24 in Hm.
  assert (Hdig : Zdigits2 (Zpos (8388608 * m)) = 47).
  { apply Zdigits2_unique; [lia|]. rewrite Pos2Z.inj_mul.
    change (2 ^ (47 - 1)) with (8388608 * 8388608).
    change (2 ^ 47) with (8388608 * 16777216). lia. }
  destruct (binary_round_aux_ulp false (Zpos (8388608 * m)) (-16 + e) loc_Exact
              (IZR (Zpos (8388608 * m))))
    as (m' & e' & j & Hr & Hj & Habs & _);
    [lia|rewrite Hdig; lia|rewrite Hdig; lia|apply located_exact; lia|].
  rewrite Hdig in *. replace (-16 + e + 47 - 24) with (e + 7) in * by lia.
  assert (HX : (IZR (Zpos (8388608 * m)) * bpow (-16 + e)
                = IZR (Zpos m) * bpow (e + 7))%R).
  { rewrite Pos2Z.inj_mul, mult_IZR.
    replace (e + 7) with (23 + (-16 + e)) by lia.
    rewrite (bpow_add 23), (bpow_IZR 23) by lia. rewrite pow2_23. ring. }
  rewrite HX in Habs.
  apply half_ulp_exact in Habs; [|apply bpow_pos]. subst j.
  exists m', e'. split; [exact Hr|]. rewrite Hj. unfold F2R.
  rewrite (Z.add_comm e 7), bpow_add, (bpow_IZR 7) by lia.
  change (2 ^ 7) with 128. ring.
Qed.

(** Quotient of two normal positive numbers, with the error in units of
    the last place of the exact quotient. *)
Lemma div_ulp m1 e1 m2 e2 :
  2 ^ 23 <= Zpos m1 < 2 ^ 24 ->
  2 ^ 23 <= Zpos m2 < 2 ^ 24 ->
  -125 <= e1 - e2 <= 126 ->
  exists m e j e',
    div (S754_finite false m1 e1) (S754_finite false m2 e2) = S754_finite false m e /\
    2 ^ 23 <= Zpos m < 2 ^ 24 /\
    e1 - e2 - 24 <= e <= e1 - e2 - 22 /\
    F2R (Zpos m) e = (IZR j * bpow e')%R /\
    (Rabs (IZR j * bpow e' - F2R (Zpos m1) e1 / F2R (Zpos m2) e2)
     <= / 2 * bpow e')%R /\
    (bpow (e' + 23) <= F2R (Zpos m1) e1 / F2R (Zpos m2) e2 < bpow (e' + 24))%R.
Proof.
  intros H1 H2 He.
  destruct (div_spec m1 e1 m2 e2 H1 H2 He) as (m & e & Hres & Hm & Hee & _).
  exists m, e. revert Hres.
  unfold div, SFdiv, SFdiv_core_binary. cbn [xorb].
  replace (Zdigits2 (Zpos m1)) with 24
    by (symmetry; apply Zdigits2_unique; [lia|exact H1]).
  replace (Zdigits2 (Zpos m2)) with 24
    by (symmetry; apply Zdigits2_unique; [lia|exact H2]).
  rewrite pow2_23, pow2_24 in H1, H2.
  rewrite fexp_normal by lia.
  replace (Z.min (24 + e1 - (24 + e2) - 24) (e1 - e2)) with (e1 - e2 - 24) by lia.
  replace (e1 - e2 - (e1 - e2 - 24)) with 24 by lia.
  cbv zeta iota beta.
  rewrite Z.shiftl_mul_pow2 by lia.
  pose proof (Z_div_mod (Zpos m1 * 2 ^ 24) (Zpos m2) ltac:(lia)) as Hdiv.
  destruct (Z.div_eucl (Zpos m1 * 2 ^ 24) (Zpos m2)) as [q r].
  destruct Hdiv as [Hqr Hr].
  rewrite pow2_24 in Hqr.
  assert (Hq : 2 ^ 23 <= q < 2 ^ 25).
  { change (2 ^ 23) with 8388608. change (2 ^ 25) with 33554432. nia. }
  pose proof (Zdigits2_bounds q ltac:(lia)) as [Dlo Dhi].
  set (d := Zdigits2 q) in *.
  assert (Hd : 24 <= d <= 25).
  { assert (0 < d) by (apply Zdigits2_pos; lia).
    assert (23 < d) by (apply pow2_lt_inv; lia).
    assert (d - 1 < 25) by (apply pow2_lt_inv; lia). lia. }
  destruct (binary_round_aux_ulp false q (e1 - e2 - 24) (new_location (Zpos m2) r)
              (IZR (Zpos m1 * 16777216) / IZR (Zpos m2)))
    as (m' & e'' & j & Hres' & Hj & Habs & HX);
    [lia|fold d; lia|fold d; lia| |].
  { apply new_location_located; lia. }
  fold d in Hj, Habs, HX.
  intros Hres. rewrite Hres in Hres'. injection Hres' as <- <-.
  exists j, (e1 - e2 - 24 + d - 24).
  assert (EX : (IZR (Zpos m1 * 16777216) / IZR (Zpos m2) * bpow (e1 - e2 - 24)
                = F2R (Zpos m1) e1 / F2R (Zpos m2) e2)%R).
  { unfold F2R.
    replace (e1 - e2 - 24) with (e1 + (- e2 + - (24))) by lia.
    rewrite !bpow_add, !bpow_opp, (bpow_IZR 24) by lia. rewrite pow2_24, mult_IZR.
    pose proof (bpow_pos e2). assert (0 < IZR (Zpos m2))%R by (apply IZR_lt; lia).
    field. split; lra. }
  rewrite EX in Habs, HX.
  split; [exact Hres|]. split; [exact Hm|]. split; [exact Hee|].
  split; [exact Hj|]. split; [exact Habs|].
  replace (e1 - e2 - 24 + d - 24 + 23) with (e1 - e2 - 24 + d - 1) by lia.
  replace (e1 - e2 - 24 + d - 24 + 24) with (e1 - e2 - 24 + d) by lia.
  exact HX.
Qed.

End ExactOps.

Section PllFloor.
Import Float32 Float32Facts.

Lemma bpow_m7 : bpow (-7) = (/ 128)%R.
Proof. unfold bpow. simpl. lra. Qed.

Lemma bpow_m25 : bpow (-25) = (/ 33554432)%R.
Proof. unfold bpow. simpl. lra. Qed.

(** The floor of lines 41 and 43 is the exact one whenever [128 * num]
    leaves a remainder at least 4 below [denom = 1048575]. *)
Lemma pll_q_is_floor num :
  1 <= num <= 1048574 ->
  (128 * num) mod 1048575 <= 1048575 - 4 ->
  pll_q num 1048575 = 128 * num / 1048575.
Proof.
  intros Hnum Hrho.
  pose proof (Z.div_mod (128 * num) 1048575 ltac:(lia)) as Hdm.
  pose proof (Z.mod_pos_bound (128 * num) 1048575 ltac:(lia)) as Hmod.
  set (q := 128 * num / 1048575) in *. set (rho := (128 * num) mod 1048575) in *.
  assert (Hq : 0 <= q <= 127) by lia.
  unfold pll_q. rewrite of_Z_1048575.
  destruct (of_Z_exact num) as (m1 & e1 & -> & Hm1 & He1 & Hv1);
    [change (2 ^ 24) with 16777216; lia|].
  destruct (div_ulp m1 e1 16777200 (-4))
    as (m & e & j & e' & -> & Hm & He & Hj & Habs & Hbin);
    [exact Hm1|rewrite pow2_23, pow2_24; lia|lia|].
  destruct (mul_128_exact m e) as (m' & e'' & -> & Hw); [exact Hm|lia|].
  pose proof (trunc_spec m' e'') as [Ht0 Ht].
  set (t := trunc (S754_finite false m' e'')) in *.
  rewrite Hw, Hj in Ht.
  assert (HD : F2R (Zpos 16777200) (-4) = 1048575%R)
    by (unfold F2R, bpow; simpl; lra).
  rewrite Hv1, HD in Habs, Hbin.
  set (B := bpow e') in *. set (y := (IZR num / 1048575)%R) in *.
  assert (HB : (0 < B)%R) by apply bpow_pos.
  assert (HN : (128 * IZR num = 1048575 * IZR q + IZR rho)%R).
  { rewrite <- (mult_IZR 128), <- (mult_IZR 1048575), <- plus_IZR. f_equal. exact Hdm. }
  assert (Hrho' : (0 <= IZR rho <= 1048571)%R) by (split; apply IZR_le; lia).
  assert (Hnum' : (1 <= IZR num <= 1048574)%R) by (split; apply IZR_le; lia).
  assert (Hy : (128 * y = IZR q + IZR rho / 1048575)%R) by (unfold y; lra).
  assert (Hy1 : (y < 1)%R) by (unfold y; lra).
  (* the last place of the quotient is at most 2^-24 *)
  assert (He' : e' <= -24).
  { assert (e' + 23 < 0); [|lia].
    apply bpow_lt_inv. rewrite bpow_0. lra. }
  (* lower bound: q / 128 is a multiple of the last place *)
  set (K := q * 2 ^ (- e' - 7)).
  assert (HK : (IZR K * B = IZR q / 128)%R).
  { unfold K, B. rewrite mult_IZR, <- bpow_IZR by lia.
    rewrite Rmult_assoc, <- bpow_add.
    replace (- e' - 7 + e') with (-7) by lia. rewrite bpow_m7. lra. }
  pose proof (Rle_abs (IZR j * B - y)) as Hp.
  pose proof (Rle_abs (- (IZR j * B - y))) as Hn. rewrite Rabs_Ropp in Hn.
  assert (HjK : K <= j).
  { assert (IZR K - 1 < IZR j)%R by nra.
    rewrite <- minus_IZR in H. apply lt_IZR in H. lia. }
  assert (Hlow : (IZR q <= 128 * (IZR j * B))%R).
  { apply IZR_le in HjK. nra. }
  (* upper bound: half a unit of the last place is at most 2^-25 *)
  assert (Hhalf : (/ 2 * B <= / 33554432)%R).
  { rewrite <- bpow_m25, <- bpow_m1. unfold B. rewrite <- bpow_add.
    apply bpow_le. lia. }
  assert (Hup : (128 * (IZR j * B) < IZR q + 1)%R) by lra.
  assert (Htq : t = q).
  { assert (IZR t < IZR q + 1)%R by lra.
    assert (IZR q < IZR t + 1)%R by lra.
    rewrite <- plus_IZR in H, H0. apply lt_IZR in H, H0. lia. }
  unfold to_ulong, u32. fold t. rewrite Htq. apply Z.mod_small.
  change (2 ^ 32) with 4294967296. lia.
Qed.

Lemma pll_q_on_domain num :
  0 <= num <= 1048574 ->
  pll_q num 1048575 = 128 * num / 1048575 \/ In num pll_q_hazards.
Proof.
  intros H.
  destruct (Z.eq_dec num 0) as [->|Hnz]; [left; reflexivity|].
  pose proof (Z.div_mod (128 * num) 1048575 ltac:(lia)) as Hdm.
  pose proof (Z.mod_pos_bound (128 * num) 1048575 ltac:(lia)) as Hmod.
  destruct (Z_le_gt_dec ((128 * num) mod 1048575) (1048575 - 4)) as [Hle|Hgt].
  - left. apply pll_q_is_floor; [lia|exact Hle].
  - right. unfold pll_q_hazards. cbn [In].
    set (q := 128 * num / 1048575) in *. set (rho := (128 * num) mod 1048575) in *.
    assert (Hq : 0 <= q <= 127) by lia.
    lia.
Qed.

Lemma pll_q_at_hazards num :
  In num pll_q_hazards -> pll_q num 1048575 = 128 * num / 1048575 + 1.
Proof.
  unfold pll_q_hazards. cbn [In].
  intros [<-|[<-|[<-|[]]]]; vm_compute; reflexivity.
Qed.

End PllFloor.

(** ** The bytes of a frame, field by field *)

Section FrameFields.
Local Open Scope io_scope.

Lemma land_field P n k :
  0 <= n -> 0 <= k ->
  Z.land P (Z.shiftl (Z.ones n) k) = ((P / 2 ^ k) mod 2 ^ n) * 2 ^ k.
Proof.
  intros Hn Hk.
  rewrite <- Z.shiftl_mul_pow2, <- Z.land_ones, <- Z.shiftr_div_pow2 by lia.
  apply Z.bits_inj'. intros i Hi.
  rewrite Z.land_spec.
  destruct (Z_lt_le_dec i k) as [Hlt|Hge].
  - rewrite !Z.shiftl_spec_low by lia. apply andb_false_r.
  - rewrite !Z.shiftl_spec by lia. rewrite Z.land_spec, Z.shiftr_spec by lia.
    replace (i - k + k) with i by lia. reflexivity.
Qed.

Lemma lor_disjoint a b n :
  0 <= n -> 0 <= b < 2 ^ n -> Z.lor (a * 2 ^ n) b = a * 2 ^ n + b.
Proof.
  intros Hn Hb.
  assert (E : Z.land (a * 2 ^ n) b = 0).
  { apply Z.bits_inj'. intros i Hi. rewrite Z.land_spec, Z.bits_0.
    rewrite <- Z.shiftl_mul_pow2 by lia.
    destruct (Z_lt_le_dec i n) as [Hlt|Hge].
    - rewrite Z.shiftl_spec_low by lia. reflexivity.
    - replace (Z.testbit b i) with false; [apply andb_false_r|].
      symmetry. destruct (Z.eq_dec b 0) as [->|Hnz]; [apply Z.bits_0|].
      apply Z.bits_above_log2; [lia|].
      apply Z.lt_le_trans with n; [|exact Hge].
      apply Z.log2_lt_pow2; lia. }
  pose proof (Z.add_lor_land (a * 2 ^ n) b) as H. rewrite E in H. lia.
Qed.

Lemma shiftr_field x a b : 0 <= b <= a -> Z.shiftr (x * 2 ^ a) b = x * 2 ^ (a - b).
Proof.
  intros H. rewrite Z.shiftr_div_pow2 by lia.
  replace (2 ^ a) with (2 ^ (a - b) * 2 ^ b)
    by (rewrite <- Z.pow_add_r by lia; f_equal; lia).
  rewrite Z.mul_assoc. apply Z.div_mul.
  assert (0 < 2 ^ b) by (apply Z.pow_pos_nonneg; lia). lia.
Qed.

(** Offset +5 of a frame: the high nibble of [P3] above the high nibble of
    [P2]. *)
Lemma nibble_byte P3 P2 :
  u8 (Z.lor (Z.shiftr (Z.land P3 0x000F0000) 12)
            (Z.shiftr (Z.land P2 0x000F0000) 16))
  = ((P3 / 2 ^ 16) mod 2 ^ 4) * 2 ^ 4 + (P2 / 2 ^ 16) mod 2 ^ 4.
Proof.
  change 0x000F0000 with (Z.shiftl (Z.ones 4) 16).
  rewrite !land_field by lia. rewrite !shiftr_field by lia.
  change (16 - 12) with 4. change (16 - 16) with 0.
  rewrite Z.pow_0_r, Z.mul_1_r.
  pose proof (Z.mod_pos_bound (P3 / 2 ^ 16) (2 ^ 4) ltac:(reflexivity)).
  pose proof (Z.mod_pos_bound (P2 / 2 ^ 16) (2 ^ 4) ltac:(reflexivity)).
  rewrite lor_disjoint by lia.
  unfold u8. apply Z.mod_small. change (2 ^ 4) with 16 in *. change (2 ^ 8) with 256. lia.
Qed.

(** Whatever the arguments, the eight bytes of the PLL frame hold the low
    18 bits of [P1] and the low 20 bits of [P2] and [P3] as lines 41 to 45
    compute them. *)
Lemma pll_round_trip_low_bits mult num denom :
  pll_round_trip mult num denom
  = Some (setupPLL_P1 (u8 mult) (u32 num) (u32 denom) mod 2 ^ 18,
          setupPLL_P2 (u32 num) (u32 denom) mod 2 ^ 20,
          u32 denom mod 2 ^ 20).
Proof.
  pose proof (performs_setupPLL_bytes SI_SYNTH_PLL_A mult num denom) as Hp.
  cbv zeta in Hp.
  set (P1 := setupPLL_P1 (u8 mult) (u32 num) (u32 denom)) in *.
  set (P2 := setupPLL_P2 (u32 num) (u32 denom)) in *.
  set (P3 := u32 denom) in *.
  rewrite nibble_byte in Hp.
  change 0x00030000 with (Z.shiftl (Z.ones 2) 16) in Hp.
  change 0x0000FF00 with (Z.shiftl (Z.ones 8) 8) in Hp.
  rewrite !field_byte, !low_byte in Hp by lia.
  apply performs_writes_of in Hp.
  unfold pll_round_trip. rewrite Hp.
  change (frame_at SI_SYNTH_PLL_A ?ws) with
    [(P3 / 2 ^ 8) mod 2 ^ 8; P3 mod 2 ^ 8;
     (P1 / 2 ^ 16) mod 2 ^ 2; (P1 / 2 ^ 8) mod 2 ^ 8; P1 mod 2 ^ 8;
     (P3 / 2 ^ 16) mod 2 ^ 4 * 2 ^ 4 + (P2 / 2 ^ 16) mod 2 ^ 4;
     (P2 / 2 ^ 8) mod 2 ^ 8; P2 mod 2 ^ 8].
  unfold Spec.unpack, Spec.bits.
  change (1 - 0 + 1) with 2. change (3 - 0 + 1) with 4. change (7 - 4 + 1) with 4.
  change (2 ^ 0) with 1. change (2 ^ 2) with 4. change (2 ^ 4) with 16.
  change (2 ^ 8) with 256. change (2 ^ 16) with 65536.
  change (2 ^ 18) with 262144. change (2 ^ 20) with 1048576.
  rewrite !Z.div_1_r.
  clearbody P1 P2 P3.
  f_equal. f_equal; [f_equal|]; Z.div_mod_to_equations; lia.
Qed.

Lemma R_DIV_code_cases rDiv :
  In rDiv R_DIV_codes -> u8 rDiv = rDiv /\ exists a, 0 <= a <= 7 /\ rDiv = a * 2 ^ 4.
Proof.
  unfold R_DIV_codes. cbn [In].
  intros [<-|[<-|[<-|[<-|[<-|[<-|[<-|[<-|[]]]]]]]]]; (split; [reflexivity|]);
    [exists 0|exists 1|exists 2|exists 3|exists 4|exists 5|exists 6|exists 7];
    (split; [lia|reflexivity]).
Qed.

(** The bytes of a Multisynth frame, field by field. *)
Lemma setupMultisynth_bytes synth divider rDiv :
  In rDiv R_DIV_codes ->
  let P1 := u32 (128 * u32 divider - 512) in
  writes_of (setupMultisynth synth divider rDiv)
  = Some [(u8 (u8 synth + 0), 0); (u8 (u8 synth + 1), 1);
          (u8 (u8 synth + 2), rDiv + (P1 / 2 ^ 16) mod 2 ^ 2);
          (u8 (u8 synth + 3), (P1 / 2 ^ 8) mod 2 ^ 8);
          (u8 (u8 synth + 4), P1 mod 2 ^ 8);
          (u8 (u8 synth + 5), 0); (u8 (u8 synth + 6), 0); (u8 (u8 synth + 7), 0)].
Proof.
  intros Hr P1.
  destruct (R_DIV_code_cases rDiv Hr) as (Hu & a & Ha & Er).
  pose proof (performs_setupMultisynth synth divider rDiv) as Hp.
  cbv zeta in Hp. fold P1 in Hp.
  apply performs_writes_of in Hp. rewrite Hp. clear Hp.
  assert (E2 : u8 (Z.lor (Z.shiftr (Z.land P1 0x00030000) 16) (u8 rDiv))
               = rDiv + (P1 / 2 ^ 16) mod 2 ^ 2).
  { change 0x00030000 with (Z.shiftl (Z.ones 2) 16).
    rewrite land_field, shiftr_field by lia. change (16 - 16) with 0.
    rewrite Z.pow_0_r, Z.mul_1_r, Hu, Z.lor_comm.
    pose proof (Z.mod_pos_bound (P1 / 2 ^ 16) (2 ^ 2) ltac:(reflexivity)) as Hb.
    change (2 ^ 2) with 4 in *.
    rewrite Er at 1. rewrite lor_disjoint by (change (2 ^ 4) with 16; lia).
    rewrite <- Er. unfold u8. apply Z.mod_small.
    rewrite Er. change (2 ^ 4) with 16. change (2 ^ 8) with 256. lia. }
  rewrite E2.
  change 0x0000FF00 with (Z.shiftl (Z.ones 8) 8).
  rewrite (field_byte P1 8 8), (low_byte P1) by lia.
  reflexivity.
Qed.

(** Whatever the divider, the Multisynth frame holds the low 18 bits of
    [128 * divider - 512], and [P2 = 0], [P3 = 1]. *)
Lemma ms_round_trip_low_bits synth divider rDiv :
  In rDiv R_DIV_codes ->
  ms_round_trip synth divider rDiv = Some ((128 * divider - 512) mod 2 ^ 18, 0, 1).
Proof.
  intros Hr. unfold ms_round_trip.
  rewrite (setupMultisynth_bytes synth divider rDiv Hr). cbv zeta.
  destruct (R_DIV_code_cases rDiv Hr) as (_ & a & Ha & Er).
  set (P1 := u32 (128 * u32 divider - 512)).
  cbn [map snd]. unfold Spec.unpack, Spec.bits.
  change (1 - 0 + 1) with 2. change (3 - 0 + 1) with 4. change (7 - 4 + 1) with 4.
  assert (EP : (128 * divider - 512) mod 2 ^ 18 = P1 mod 2 ^ 18).
  { unfold P1, u32. change (2 ^ 32) with 4294967296. change (2 ^ 18) with 262144.
    Z.div_mod_to_equations. lia. }
  rewrite EP. clearbody P1.
  change (2 ^ 0) with 1. change (2 ^ 2) with 4. change (2 ^ 4) with 16.
  change (2 ^ 8) with 256. change (2 ^ 16) with 65536. change (2 ^ 18) with 262144.
  rewrite !Z.div_1_r.
  assert (E1 : ((rDiv + (P1 / 65536) mod 4) mod 4) * 65536
               + (P1 / 256) mod 256 * 256 + P1 mod 256 = P1 mod 262144)
    by (rewrite Er; change (2 ^ 4) with 16; Z.div_mod_to_equations; lia).
  rewrite E1. reflexivity.
Qed.

Lemma written_to_app r ws1 ws2 :
  written_to r (ws1 ++ ws2) = written_to r ws1 ++ written_to r ws2.
Proof. unfold written_to. rewrite filter_app, map_app. reflexivity. Qed.

Lemma written_to_absent r ws : ~ In r (map fst ws) -> written_to r ws = [].
Proof.
  unfold written_to. induction ws as [|[a x] ws IH]; [reflexivity|].
  cbn [map fst In filter]. intros H.
  destruct (Z.eqb_spec a r) as [E|E]; [exfalso; apply H; left; exact E|].
  apply IH. intros Hin. apply H. right. exact Hin.
Qed.

(** The PLL frame of a tuning call is the frame of its call to
    [setupPLL]: no later write touches registers 26 to 33. *)
Lemma pll_frame_of_call F v :
  si5351aSetFrequency_locals (u32 F) = Some v ->
  exists ws,
    writes_of (si5351aSetFrequency F) = Some ws /\
    Spec.unpack (frame_at SI_SYNTH_PLL_A ws)
    = pll_round_trip (Locals.mult v) (Locals.num v) (Locals.denom v).
Proof.
  intros Hv.
  pose proof (performs_setupPLL_bytes SI_SYNTH_PLL_A (Locals.mult v) (Locals.num v)
                (Locals.denom v)) as Hpll.
  cbv zeta in Hpll.
  match type of Hpll with performs _ ?ws => set (pll_ws := ws) in * end.
  assert (Hcall : exists rest,
             performs (si5351aSetFrequency F) (pll_ws ++ rest) /\
             map fst rest = [42; 43; 44; 45; 46; 47; 48; 49;
                             50; 51; 52; 53; 54; 55; 56; 57; 165; 166]).
  { eexists. split.
    - unfold si5351aSetFrequency. apply (performs_defined _ v); [exact Hv|].
      apply performs_seq; [exact Hpll|].
      apply performs_seq; [apply performs_setupMultisynth|].
      apply performs_seq; [apply performs_setupMultisynth|].
      apply performs_seq; [apply performs_sendRegister|apply performs_sendRegister].
    - reflexivity. }
  destruct Hcall as (rest & Hcall & Hrest).
  apply performs_writes_of in Hcall. apply performs_writes_of in Hpll.
  eexists. split; [exact Hcall|].
  unfold pll_round_trip. rewrite Hpll. f_equal.
  unfold frame_at. cbn [flat_map]. rewrite !written_to_app.
  assert (Hnone : forall r, 26 <= r <= 33 -> written_to r rest = []).
  { intros r Hr. apply written_to_absent. rewrite Hrest. cbn [In]. lia. }
  rewrite !Hnone by (unfold SI_SYNTH_PLL_A; lia).
  rewrite !app_nil_r. reflexivity.
Qed.

End FrameFields.

(** ** The planner on its supported range *)

Section InRange.

(** At the two largest remainders the single-precision numerator of lines
    24 to 27 reaches the denominator. *)
Lemma plan_num_reaches_denom :
  plan_num 24999115 Si5351A_XTAL_FREQ = 1048575 /\
  plan_num 24999116 Si5351A_XTAL_FREQ = 1048575.
Proof. split; vm_compute; reflexivity. Qed.

(** No frequency of the supported range leaves one of these two remainders,
    and below them the numerator stays under the denominator. *)
Lemma in_range_num_below_denom F v :
  3500000 <= F <= 30000000 ->
  si5351aSetFrequency_locals F = Some v ->
  15 <= Locals.mult v <= 52 /\
  Locals.l v <= 24999114 /\
  0 <= Locals.num v <= 1048574 /\
  Locals.denom v = 1048575.
Proof.
  intros HF Hv0.
  destruct (in_range_locals F HF)
    as (v1 & Hv & Hd & Hp & Hmb & Hm & Hl & Hc & Hn & Hden).
  rewrite Hv0 in Hv. injection Hv as <-.
  destruct (locals_total F) as (v' & Hv' & _ & _ & _ & _ & Hnum & _).
  rewrite Hv0 in Hv'. injection Hv' as <-.
  pose proof (Z.div_mod (Locals.pllFreq v) Si5351A_XTAL_FREQ ltac:(discriminate)) as Hdm.
  pose proof (Z.mod_pos_bound (Locals.pllFreq v) Si5351A_XTAL_FREQ ltac:(reflexivity)) as Hmod.
  rewrite <- Hm, <- Hl in Hdm. rewrite <- Hl in Hmod.
  assert (Hreach : Locals.l v <= 24999114).
  { rewrite Hp, Hd in Hdm. unfold Spec.divider, Si5351A_XTAL_FREQ in *.
    destruct (Z.leb_spec F 9050000); lia. }
  split; [exact Hmb|]. split; [exact Hreach|]. split; [|exact Hden].
  split; [lia|].
  destruct (Z_le_gt_dec (Locals.l v) 24999093) as [Hlow|Hhigh].
  - assert (Spec.num (Locals.l v) <= 1048573).
    { unfold Spec.num, Si5351A_XTAL_FREQ. apply Z.lt_succ_r.
      apply Z.div_lt_upper_bound; lia. }
    lia.
  - pose proof (scan_sound plan_num_below_denom 24999094 21 plan_num_top_scan
                  (Locals.l v) ltac:(lia)) as Hs.
    unfold plan_num_below_denom in Hs. apply Z.ltb_lt in Hs. rewrite Hnum. lia.
Qed.

End InRange.

(** ** Further properties *)

Section Further.
Local Open Scope io_scope.

(** X1. [sendRegister] on a log of complete transactions appends one
    transaction: START, the device address 0xC0, the register address and
    the value, both reduced to a byte, STOP; read back, the log holds the
    earlier register writes followed by this one. *)
Theorem sendRegister_appends_one_transaction
    (reg_addr reg_value : Z) (ws : list (Z * Z)) :
  exists b,
    sendRegister reg_addr reg_value (encode ws) = Some (tt, b) /\
    b = encode ws ++ [I2C1_Start; I2C1_Wr 0xC0; I2C1_Wr (reg_addr mod 256);
                      I2C1_Wr (reg_value mod 256); I2C1_Stop] /\
    reg_writes b = ws ++ [(reg_addr mod 256, reg_value mod 256)].
Proof.
  pose proof (performs_sendRegister reg_addr reg_value (encode ws)) as H.
  eexists. split; [exact H|]. split; [reflexivity|].
  rewrite <- encode_app. apply reg_writes_encode.
Qed.

(** X2. Round trip of the Multisynth packer: for a base register up to 248,
    a divider from 4 to 2051 and any of the eight R-divider codes, the eight
    bytes go to the eight registers from the base upwards and unpack to
    [P1 = 128 * divider - 512], [P2 = 0], [P3 = 1]; the divider is recovered
    as [(P1 + 512) / 128] and the code from bits 6:4 of the byte at
    offset +2. *)
Theorem multisynth_round_trip (synth divider rDiv : Z) :
  0 <= synth <= 248 -> 4 <= divider <= 2051 -> In rDiv R_DIV_codes ->
  exists ws b2,
    writes_of (setupMultisynth synth divider rDiv) = Some ws /\
    map fst ws = [synth; synth + 1; synth + 2; synth + 3;
                  synth + 4; synth + 5; synth + 6; synth + 7] /\
    Spec.unpack (map snd ws) = Some (128 * divider - 512, 0, 1) /\
    (128 * divider - 512 + 512) / 128 = divider /\
    nth_error (map snd ws) 2 = Some b2 /\
    Spec.bits 6 4 b2 * 2 ^ 4 = rDiv.
Proof.
  intros Hs Hd Hr.
  pose proof (setupMultisynth_bytes synth divider rDiv Hr) as Hw. cbv zeta in Hw.
  pose proof (ms_round_trip_low_bits synth divider rDiv Hr) as Hrt.
  unfold ms_round_trip in Hrt. rewrite Hw in Hrt.
  eexists. eexists. split; [exact Hw|].
  split.
  { cbn [map fst]. unfold u8. change (2 ^ 8) with 256.
    rewrite !(Z.mod_small synth) by lia. rewrite !Z.mod_small by lia.
    rewrite Z.add_0_r. reflexivity. }
  split.
  { rewrite Hrt. rewrite Z.mod_small by (change (2 ^ 18) with 262144; lia). reflexivity. }
  split; [symmetry; apply Z.div_unique with 0; lia|].
  split; [reflexivity|].
  destruct (R_DIV_code_cases rDiv Hr) as (_ & a & Ha & ->).
  unfold Spec.bits. change (6 - 4 + 1) with 3.
  change (2 ^ 4) with 16. change (2 ^ 3) with 8. change (2 ^ 2) with 4.
  change (2 ^ 16) with 65536.
  cbn [snd]. generalize (u32 (128 * u32 divider - 512)). intros P1.
  Z.div_mod_to_equations. lia.
Qed.

Lemma multisynth_round_trip_witness :
  0 <= 58 <= 248 /\ 4 <= 900 <= 2051 /\ In SI_R_DIV_4 R_DIV_codes /\
  exists ws b2,
    writes_of (setupMultisynth 58 900 SI_R_DIV_4) = Some ws /\
    map fst ws = [58; 58 + 1; 58 + 2; 58 + 3; 58 + 4; 58 + 5; 58 + 6; 58 + 7] /\
    Spec.unpack (map snd ws) = Some (128 * 900 - 512, 0, 1) /\
    (128 * 900 - 512 + 512) / 128 = 900 /\
    nth_error (map snd ws) 2 = Some b2 /\
    Spec.bits 6 4 b2 * 2 ^ 4 = SI_R_DIV_4.
Proof.
  split; [lia|]. split; [lia|]. split; [simpl; auto|].
  apply (multisynth_round_trip 58 900 SI_R_DIV_4); [lia|lia|simpl; auto].
Defined.

(** X3. The Multisynth packer keeps 18 bits of [P1]: whatever the divider,
    the frame unpacks to [(128 * divider - 512) mod 2^18]; so the dividers
    [d] and [d + 2048] give the same frame, and a divider below 4, for which
    [128 * divider - 512] is negative, gives [P1 = 261632 + 128 * divider]. *)
Theorem multisynth_divider_wraps (synth divider rDiv : Z) :
  In rDiv R_DIV_codes ->
  ms_round_trip synth divider rDiv = Some ((128 * divider - 512) mod 2 ^ 18, 0, 1) /\
  ms_round_trip synth (divider + 2048) rDiv = ms_round_trip synth divider rDiv /\
  (0 <= divider <= 3 ->
   ms_round_trip synth divider rDiv = Some (261632 + 128 * divider, 0, 1)).
Proof.
  intros Hr.
  rewrite !(ms_round_trip_low_bits _ _ _ Hr).
  change (2 ^ 18) with 262144.
  split; [reflexivity|]. split.
  - f_equal. f_equal. f_equal. Z.div_mod_to_equations. lia.
  - intros Hd. f_equal. f_equal. f_equal. Z.div_mod_to_equations. lia.
Qed.

Lemma multisynth_divider_wraps_witness :
  In SI_R_DIV_1 R_DIV_codes /\
  ms_round_trip 42 3 SI_R_DIV_1 = Some ((128 * 3 - 512) mod 2 ^ 18, 0, 1) /\
  ms_round_trip 42 (3 + 2048) SI_R_DIV_1 = ms_round_trip 42 3 SI_R_DIV_1 /\
  (0 <= 3 <= 3 -> ms_round_trip 42 3 SI_R_DIV_1 = Some (261632 + 128 * 3, 0, 1)).
Proof.
  split; [simpl; auto|]. apply (multisynth_divider_wraps 42 3 SI_R_DIV_1). simpl; auto.
Defined.

(** X4. Layout of the PLL frame, for all arguments: the eight bytes written
    by [setupPLL] unpack to the low 18 bits of the [P1] and the low 20 bits
    of the [P2] and [P3] that lines 41 to 45 compute in 32-bit unsigned
    arithmetic; nothing else of them reaches the device. *)
Theorem pll_frame_carries_low_bits (mult num denom : Z) :
  pll_round_trip mult num denom
  = Some (setupPLL_P1 (u8 mult) (u32 num) (u32 denom) mod 2 ^ 18,
          setupPLL_P2 (u32 num) (u32 denom) mod 2 ^ 20,
          u32 denom mod 2 ^ 20) /\
  pll_round_trip (mult + 256) num denom = pll_round_trip mult num denom.
Proof.
  split; [apply pll_round_trip_low_bits|].
  rewrite !pll_round_trip_low_bits.
  replace (u8 (mult + 256)) with (u8 mult); [reflexivity|].
  unfold u8. change (2 ^ 8) with 256.
  rewrite <- (Z.mul_1_l 256) at 2. symmetry. apply Z.mod_add. discriminate.
Qed.

(** X5. The floor of lines 41 and 43 against the exact one, for
    [denom = 1048575]: for every numerator from 0 to 1048574 the
    single-precision value [(unsigned long)(128 * ((float)num / (float)denom))]
    is the exact floor of [128 * num / denom] unless [num] is 1023999,
    1032191 or 1040383, where it is one more. *)
Theorem pll_floor_exact_iff (num : Z) :
  0 <= num <= 1048574 ->
  (pll_q num 1048575 = 128 * num / 1048575 <-> ~ In num pll_q_hazards) /\
  (In num pll_q_hazards -> pll_q num 1048575 = 128 * num / 1048575 + 1).
Proof.
  intros H. split; [|apply pll_q_at_hazards].
  split.
  - intros Hq Hin. apply pll_q_at_hazards in Hin. lia.
  - intros Hn. destruct (pll_q_on_domain num H) as [Hq|Hin]; [exact Hq|contradiction].
Qed.

Lemma pll_floor_exact_iff_witness :
  0 <= 227796 <= 1048574 /\
  (pll_q 227796 1048575 = 128 * 227796 / 1048575 <-> ~ In 227796 pll_q_hazards) /\
  (In 227796 pll_q_hazards -> pll_q 227796 1048575 = 128 * 227796 / 1048575 + 1).
Proof. split; [lia|apply (pll_floor_exact_iff 227796); lia]. Defined.

(** X6. Round trip of the PLL packer away from the three numerators: for
    [mult] in [15, 90], [denom = 1048575] and every [num] in [0, 1048574]
    other than 1023999, 1032191 and 1040383, the eight bytes unpack to
    [P1 = 128 * mult + floor (128 * num / denom) - 512],
    [P2 = 128 * num - denom * floor (128 * num / denom)] and [P3 = denom]. *)
Theorem pll_round_trip_except_hazards (mult num : Z) :
  15 <= mult <= 90 -> 0 <= num <= 1048574 -> ~ In num pll_q_hazards ->
  pll_round_trip mult num 1048575
  = Some (Spec.P1 mult num 1048575, Spec.P2 num 1048575, Spec.P3 1048575).
Proof.
  intros Hm Hn Hh. apply pll_round_trip_when_floor_exact; [exact Hm|exact Hn|].
  destruct (pll_q_on_domain num Hn) as [Hq|Hin]; [exact Hq|contradiction].
Qed.

Lemma pll_round_trip_except_hazards_witness :
  15 <= 35 <= 90 /\ 0 <= 227796 <= 1048574 /\ ~ In 227796 pll_q_hazards /\
  pll_round_trip 35 227796 1048575
  = Some (Spec.P1 35 227796 1048575, Spec.P2 227796 1048575, Spec.P3 1048575).
Proof.
  assert (Hh : ~ In 227796 pll_q_hazards)
    by (unfold pll_q_hazards; cbn [In]; intros [H|[H|[H|[]]]]; discriminate H).
  split; [lia|]. split; [lia|]. split; [exact Hh|].
  apply (pll_round_trip_except_hazards 35 227796); [lia|lia|exact Hh].
Defined.

(** X7. Domain without wrap-around: for every frequency up to
    97,612,893 Hz the 32-bit product [divider * frequency] and the 8-bit
    [mult] do not wrap, so the locals satisfy the Euclidean identity
    [divider * F = mult * xtalFreq + l] with [0 <= l < xtalFreq] and
    [mult <= 171].  (One hertz higher the product wraps, see
    [pllFreq_wraps_above_bound].) *)
Theorem planner_arithmetic_is_exact (F : Z) :
  0 <= F <= 97612893 ->
  exists v,
    si5351aSetFrequency_locals F = Some v /\
    Locals.pllFreq v = Locals.divider v * F /\
    Locals.divider v * F = Locals.mult v * Si5351A_XTAL_FREQ + Locals.l v /\
    0 <= Locals.l v < Si5351A_XTAL_FREQ /\
    0 <= Locals.mult v <= 171.
Proof.
  intros HF.
  destruct (locals_total F) as (v & Hv & Hd & Hp & Hm & Hl & _).
  exists v. split; [exact Hv|].
  assert (Hwrap : Locals.pllFreq v = Locals.divider v * F /\
                  0 <= Locals.pllFreq v < 2 ^ 32).
  { rewrite Hp, Hd. unfold u32, Spec.divider. change (2 ^ 32) with 4294967296.
    destruct (Z.leb_spec F 9050000); (rewrite Z.mod_small by lia); lia. }
  destruct Hwrap as [Hp' Hb]. change (2 ^ 32) with 4294967296 in Hb.
  pose proof (Z.div_mod (Locals.pllFreq v) Si5351A_XTAL_FREQ ltac:(discriminate)) as Hdm.
  pose proof (Z.mod_pos_bound (Locals.pllFreq v) Si5351A_XTAL_FREQ ltac:(reflexivity)) as Hmod.
  assert (Hq : 0 <= Locals.pllFreq v / Si5351A_XTAL_FREQ <= 171).
  { unfold Si5351A_XTAL_FREQ. split; [apply Z.div_pos; lia|].
    apply Z.lt_succ_r, Z.div_lt_upper_bound; lia. }
  assert (Hm' : Locals.mult v = Locals.pllFreq v / Si5351A_XTAL_FREQ).
  { rewrite Hm. unfold u8. apply Z.mod_small. change (2 ^ 8) with 256. lia. }
  assert (Hl' : Locals.l v = Locals.pllFreq v mod Si5351A_XTAL_FREQ).
  { rewrite Hl. unfold u32. apply Z.mod_small. unfold Si5351A_XTAL_FREQ in *.
    change (2 ^ 32) with 4294967296. lia. }
  split; [exact Hp'|]. split; [rewrite <- Hp', Hm', Hl'; lia|].
  split; [rewrite Hl'; exact Hmod|rewrite Hm'; exact Hq].
Qed.

Lemma planner_arithmetic_is_exact_witness :
  0 <= 97612893 <= 97612893 /\
  exists v,
    si5351aSetFrequency_locals 97612893 = Some v /\
    Locals.pllFreq v = Locals.divider v * 97612893 /\
    Locals.divider v * 97612893 = Locals.mult v * Si5351A_XTAL_FREQ + Locals.l v /\
    0 <= Locals.l v < Si5351A_XTAL_FREQ /\
    0 <= Locals.mult v <= 171.
Proof. split; [lia|apply (planner_arithmetic_is_exact 97612893); lia]. Defined.

(** One hertz above that bound [44 * 97,612,894 = 2^32 + 40] wraps to 40
    and the plan is that of a 40 Hz PLL frequency. *)
Lemma pllFreq_wraps_above_bound :
  exists v,
    si5351aSetFrequency_locals 97612894 = Some v /\
    Locals.divider v * 97612894 = 2 ^ 32 + 40 /\
    Locals.pllFreq v = 40 /\ Locals.mult v = 0 /\ Locals.l v = 40.
Proof. eexists. split; [vm_compute; reflexivity|]. repeat split. Qed.

(** X8. Accuracy of the plan: for every frequency of the supported range
    the planned PLL frequency [xtalFreq * (mult + num / denom)] lies less
    than 48 Hz below and less than 24 Hz above [divider * F] (in integers:
    [-2 * xtalFreq < xtalFreq * (mult * denom + num) - denom * divider * F
    <= xtalFreq]); divided by [divider] this is within 1.1 Hz below and
    0.6 Hz above [F]. *)
Theorem planned_frequency_accuracy (F : Z) :
  3500000 <= F <= 30000000 ->
  exists v,
    si5351aSetFrequency_locals F = Some v /\
    - 2 * Si5351A_XTAL_FREQ
      < Si5351A_XTAL_FREQ * (Locals.mult v * Locals.denom v + Locals.num v)
        - Locals.denom v * (Locals.divider v * F)
      <= Si5351A_XTAL_FREQ /\
    (let vco := (IZR Si5351A_XTAL_FREQ *
                 (IZR (Locals.mult v) + IZR (Locals.num v) / IZR (Locals.denom v)))%R in
     (IZR (Locals.divider v * F) - 48 < vco < IZR (Locals.divider v * F) + 24)%R /\
     (IZR F - 11 / 10 < vco / IZR (Locals.divider v) < IZR F + 6 / 10)%R).
Proof.
  intros HF.
  destruct (in_range_locals F HF)
    as (v & Hv & Hd & Hp & Hmb & Hm & Hl & Hc & Hn & Hden).
  exists v. split; [exact Hv|].
  pose proof (Z.div_mod (Locals.pllFreq v) Si5351A_XTAL_FREQ ltac:(discriminate)) as Hdm.
  pose proof (Z.mod_pos_bound (Locals.pllFreq v) Si5351A_XTAL_FREQ ltac:(reflexivity)) as Hmod.
  rewrite <- Hm, <- Hl in Hdm. rewrite <- Hl in Hmod.
  unfold Spec.num in Hc.
  pose proof (Z.div_mod (Locals.l v * 1048575) Si5351A_XTAL_FREQ ltac:(discriminate)) as Hdm2.
  pose proof (Z.mod_pos_bound (Locals.l v * 1048575) Si5351A_XTAL_FREQ ltac:(reflexivity)) as Hmod2.
  set (q := Locals.l v * 1048575 / Si5351A_XTAL_FREQ) in *.
  set (r := (Locals.l v * 1048575) mod Si5351A_XTAL_FREQ) in *.
  assert (Hint : - 2 * Si5351A_XTAL_FREQ
      < Si5351A_XTAL_FREQ * (Locals.mult v * Locals.denom v + Locals.num v)
        - Locals.denom v * (Locals.divider v * F)
      <= Si5351A_XTAL_FREQ).
  { rewrite <- Hp, Hden, Hdm. unfold Si5351A_XTAL_FREQ in *. lia. }
  split; [exact Hint|].
  cbv zeta. rewrite Hden in *.
  assert (HD : (Locals.divider v = 124 \/ Locals.divider v = 44)).
  { rewrite Hd. unfold Spec.divider. destruct (F <=? 9050000); auto. }
  set (dF := Locals.divider v * F) in *.
  set (P := Si5351A_XTAL_FREQ * (Locals.mult v * 1048575 + Locals.num v)) in *.
  assert (HP : (IZR Si5351A_XTAL_FREQ *
                (IZR (Locals.mult v) + IZR (Locals.num v) / 1048575)
                = IZR P / 1048575)%R).
  { unfold P. rewrite mult_IZR, plus_IZR, mult_IZR. field. }
  rewrite HP.
  destruct Hint as [Hlo Hhi].
  apply IZR_lt in Hlo. apply IZR_le in Hhi.
  unfold Si5351A_XTAL_FREQ in Hlo, Hhi.
  rewrite minus_IZR, !mult_IZR in Hlo. rewrite minus_IZR, !mult_IZR in Hhi.
  assert (HdF : IZR dF = (IZR (Locals.divider v) * IZR F)%R)
    by (unfold dF; apply mult_IZR).
  assert (Hvco : (IZR dF - 48 < IZR P / 1048575 < IZR dF + 24)%R) by lra.
  split; [exact Hvco|].
  destruct HD as [E|E]; rewrite E in *.
  - split.
    + apply Rmult_lt_reg_r with 124%R; [lra|]. field_simplify. lra.
    + apply Rmult_lt_reg_r with 124%R; [lra|]. field_simplify. lra.
  - split.
    + apply Rmult_lt_reg_r with 44%R; [lra|]. field_simplify. lra.
    + apply Rmult_lt_reg_r with 44%R; [lra|]. field_simplify. lra.
Qed.

Lemma planned_frequency_accuracy_witness :
  3500000 <= 14200000 <= 30000000 /\
  exists v,
    si5351aSetFrequency_locals 14200000 = Some v /\
    - 2 * Si5351A_XTAL_FREQ
      < Si5351A_XTAL_FREQ * (Locals.mult v * Locals.denom v + Locals.num v)
        - Locals.denom v * (Locals.divider v * 14200000)
      <= Si5351A_XTAL_FREQ /\
    (let vco := (IZR Si5351A_XTAL_FREQ *
                 (IZR (Locals.mult v) + IZR (Locals.num v) / IZR (Locals.denom v)))%R in
     (IZR (Locals.divider v * 14200000) - 48 < vco
      < IZR (Locals.divider v * 14200000) + 24)%R /\
     (IZR 14200000 - 11 / 10 < vco / IZR (Locals.divider v)
      < IZR 14200000 + 6 / 10)%R).
Proof. split; [lia|apply (planned_frequency_accuracy 14200000); lia]. Defined.

(** X9. Traffic of one tuning call: whatever the frequency and the earlier
    bus log, the call succeeds, leaves the earlier log untouched and appends
    26 register writes, that is 130 bus events, which read back as these
    writes. *)
Theorem tuning_call_appends_26_writes (F : Z) (b : bus) :
  exists ws,
    si5351aSetFrequency F b = Some (tt, b ++ encode ws) /\
    length ws = 26%nat /\
    length (encode ws) = 130%nat /\
    reg_writes (encode ws) = ws.
Proof.
  destruct (performs_si5351aSetFrequency F)
    as (v0 & v1 & v2 & v3 & v4 & v5 & v6 & v7 & Hp).
  eexists. split; [apply Hp|]. split; [reflexivity|].
  split; [reflexivity|apply reg_writes_encode].
Qed.


(** X11. Quadrature setting: for every frequency the byte written to the
    CLK0 phase-offset register is the divider that both Multisynth frames
    encode ([P1 = 128 * d - 512], [P2 = 0], [P3 = 1] at 42..49 and at
    50..57), and the CLK1 phase offset is 0. *)
Theorem phase_offset_matches_multisynth_divider (F : Z) :
  exists ws d,
    writes_of (si5351aSetFrequency F) = Some ws /\
    written_to CLK0_PHOFF ws = [d] /\
    written_to CLK1_PHOFF ws = [0] /\
    Spec.unpack (frame_at SI_SYNTH_MS_0 ws) = Some (128 * d - 512, 0, 1) /\
    Spec.unpack (frame_at SI_SYNTH_MS_1 ws) = Some (128 * d - 512, 0, 1).
Proof.
  destruct (performs_si5351aSetFrequency F)
    as (v0 & v1 & v2 & v3 & v4 & v5 & v6 & v7 & Hp).
  apply performs_writes_of in Hp.
  eexists. exists (Spec.divider (u32 F)). split; [exact Hp|].
  unfold Spec.divider.
  destruct (u32 F <=? 9050000); repeat split; reflexivity.
Qed.

(** X12. Retuning within a band: two frequencies on the same side of
    9,050,000 Hz give the same writes after the PLL frame; only the bytes of
    registers 26 to 33 can differ. *)
Theorem retune_within_band_changes_pll_only (F1 F2 : Z) :
  (u32 F1 <=? 9050000) = (u32 F2 <=? 9050000) ->
  exists ws1 ws2,
    writes_of (si5351aSetFrequency F1) = Some ws1 /\
    writes_of (si5351aSetFrequency F2) = Some ws2 /\
    skipn 8 ws1 = skipn 8 ws2 /\
    forall r, ~ (26 <= r <= 33) -> written_to r ws1 = written_to r ws2.
Proof.
  intros Hband.
  destruct (performs_si5351aSetFrequency F1)
    as (v0 & v1 & v2 & v3 & v4 & v5 & v6 & v7 & Hp1).
  destruct (performs_si5351aSetFrequency F2)
    as (w0 & w1 & w2 & w3 & w4 & w5 & w6 & w7 & Hp2).
  apply performs_writes_of in Hp1, Hp2.
  unfold Spec.divider in Hp1, Hp2. rewrite Hband in Hp1.
  do 2 eexists. split; [exact Hp1|]. split; [exact Hp2|].
  split; [reflexivity|].
  intros r Hr. rewrite !(written_to_app r [_; _; _; _; _; _; _; _]).
  f_equal. rewrite !written_to_absent; [reflexivity| |]; cbn [map fst In]; lia.
Qed.

Lemma retune_within_band_changes_pll_only_witness :
  (u32 7100000 <=? 9050000) = (u32 7100010 <=? 9050000) /\
  exists ws1 ws2,
    writes_of (si5351aSetFrequency 7100000) = Some ws1 /\
    writes_of (si5351aSetFrequency 7100010) = Some ws2 /\
    skipn 8 ws1 = skipn 8 ws2 /\
    forall r, ~ (26 <= r <= 33) -> written_to r ws1 = written_to r ws2.
Proof.
  split; [reflexivity|].
  apply (retune_within_band_changes_pll_only 7100000 7100010). reflexivity.
Defined.

(** X13. Retuning across the band edge: two frequencies on different sides
    of 9,050,000 Hz differ in the Multisynth frames (the byte at offset +3)
    and in the CLK0 phase offset. *)
Theorem retune_across_band_changes_dividers (F1 F2 : Z) :
  (u32 F1 <=? 9050000) <> (u32 F2 <=? 9050000) ->
  exists ws1 ws2,
    writes_of (si5351aSetFrequency F1) = Some ws1 /\
    writes_of (si5351aSetFrequency F2) = Some ws2 /\
    written_to 45 ws1 <> written_to 45 ws2 /\
    written_to 53 ws1 <> written_to 53 ws2 /\
    written_to CLK0_PHOFF ws1 <> written_to CLK0_PHOFF ws2.
Proof.
  intros Hband.
  destruct (performs_si5351aSetFrequency F1)
    as (v0 & v1 & v2 & v3 & v4 & v5 & v6 & v7 & Hp1).
  destruct (performs_si5351aSetFrequency F2)
    as (w0 & w1 & w2 & w3 & w4 & w5 & w6 & w7 & Hp2).
  apply performs_writes_of in Hp1, Hp2.
  unfold Spec.divider in Hp1, Hp2.
  do 2 eexists. split; [exact Hp1|]. split; [exact Hp2|].
  destruct (u32 F1 <=? 9050000), (u32 F2 <=? 9050000);
    try (exfalso; apply Hband; reflexivity);
    repeat split; discriminate.
Qed.

Lemma retune_across_band_changes_dividers_witness :
  (u32 9050000 <=? 9050000) <> (u32 9050001 <=? 9050000) /\
  exists ws1 ws2,
    writes_of (si5351aSetFrequency 9050000) = Some ws1 /\
    writes_of (si5351aSetFrequency 9050001) = Some ws2 /\
    written_to 45 ws1 <> written_to 45 ws2 /\
    written_to 53 ws1 <> written_to 53 ws2 /\
    written_to CLK0_PHOFF ws1 <> written_to CLK0_PHOFF ws2.
Proof.
  split; [vm_compute; discriminate|].
  apply (retune_across_band_changes_dividers 9050000 9050001).
  vm_compute. discriminate.
Defined.

(** X14. The planned fraction is proper on the supported range: for every
    frequency from 3.5 MHz to 30 MHz the remainder is at most 24,999,114
    and [0 <= num < denom].  (At the remainders 24,999,115 and 24,999,116,
    which no frequency of the range produces, lines 24 to 27 yield
    [num = denom], see [plan_num_reaches_denom].) *)
Theorem in_range_fraction_is_proper (F : Z) :
  3500000 <= F <= 30000000 ->
  exists v,
    si5351aSetFrequency_locals F = Some v /\
    Locals.l v <= 24999114 /\
    0 <= Locals.num v < Locals.denom v.
Proof.
  intros HF.
  destruct (locals_total F) as (v & Hv & _).
  destruct (in_range_num_below_denom F v HF Hv) as (_ & Hl & Hn & Hden).
  exists v. split; [exact Hv|]. split; [exact Hl|]. rewrite Hden. lia.
Qed.

Lemma in_range_fraction_is_proper_witness :
  3500000 <= 10795073 <= 30000000 /\
  exists v,
    si5351aSetFrequency_locals 10795073 = Some v /\
    Locals.l v <= 24999114 /\
    0 <= Locals.num v < Locals.denom v.
Proof. split; [lia|apply (in_range_fraction_is_proper 10795073); lia]. Defined.

(** X15. What a tuning call writes to the PLL registers: for every
    frequency of the supported range, the bytes written at 26..33 unpack to
    the parameters [P1], [P2], [P3] of the planned [mult], [num], [denom]
    when [num] is none of 1023999, 1032191, 1040383, and to [P1 + 1],
    [P2 + 1], [P3] when it is one of them. *)
Theorem in_range_pll_frame_decodes (F : Z) :
  3500000 <= F <= 30000000 ->
  exists v ws,
    si5351aSetFrequency_locals F = Some v /\
    writes_of (si5351aSetFrequency F) = Some ws /\
    (~ In (Locals.num v) pll_q_hazards ->
     Spec.unpack (frame_at SI_SYNTH_PLL_A ws)
     = Some (Spec.P1 (Locals.mult v) (Locals.num v) (Locals.denom v),
             Spec.P2 (Locals.num v) (Locals.denom v),
             Spec.P3 (Locals.denom v))) /\
    (In (Locals.num v) pll_q_hazards ->
     Spec.unpack (frame_at SI_SYNTH_PLL_A ws)
     = Some (Spec.P1 (Locals.mult v) (Locals.num v) (Locals.denom v) + 1,
             Spec.P2 (Locals.num v) (Locals.denom v) + 1,
             Spec.P3 (Locals.denom v))).
Proof.
  intros HF.
  assert (EF : u32 F = F) by (apply in_range_u32; exact HF).
  destruct (locals_total F) as (v & Hv & _).
  destruct (in_range_num_below_denom F v HF Hv) as (Hm & _ & Hn & Hden).
  destruct (pll_frame_of_call F v ltac:(rewrite EF; exact Hv)) as (ws & Hws & Hframe).
  exists v, ws. split; [exact Hv|]. split; [exact Hws|].
  rewrite Hframe, Hden. split.
  - intros Hh. apply pll_round_trip_when_floor_exact; [lia|exact Hn|].
    destruct (pll_q_on_domain (Locals.num v) Hn) as [Hq|Hin]; [exact Hq|contradiction].
  - intros Hin. rewrite pll_round_trip_low_bits.
    assert (Eu8 : u8 (Locals.mult v) = Locals.mult v)
      by (unfold u8; apply Z.mod_small; change (2 ^ 8) with 256; lia).
    assert (Eu32 : u32 (Locals.num v) = Locals.num v)
      by (unfold u32; apply Z.mod_small; change (2 ^ 32) with 4294967296; lia).
    change (u32 1048575) with 1048575. rewrite Eu8, Eu32.
    unfold setupPLL_P1, setupPLL_P2, Spec.P1, Spec.P2, Spec.P3.
    rewrite (pll_q_at_hazards _ Hin).
    set (num := Locals.num v) in *. set (mult := Locals.mult v) in *.
    clearbody num mult. clear - Hin Hm.
    unfold pll_q_hazards in Hin. cbn [In] in Hin.
    unfold u32. change (2 ^ 32) with 4294967296.
    change (2 ^ 18) with 262144. change (2 ^ 20) with 1048576.
    destruct Hin as [<-|[<-|[<-|[]]]];
      match goal with
      | |- context [128 * ?n / 1048575] =>
          let q := eval vm_compute in (128 * n / 1048575) in
          change (128 * n / 1048575) with q
      end;
      apply (f_equal Some); (apply (f_equal2 pair); [apply (f_equal2 pair)|]);
      try reflexivity; Z.div_mod_to_equations; lia.
Qed.

Lemma in_range_pll_frame_decodes_witness :
  3500000 <= 14199605 <= 30000000 /\
  exists v ws,
    si5351aSetFrequency_locals 14199605 = Some v /\
    writes_of (si5351aSetFrequency 14199605) = Some ws /\
    (~ In (Locals.num v) pll_q_hazards ->
     Spec.unpack (frame_at SI_SYNTH_PLL_A ws)
     = Some (Spec.P1 (Locals.mult v) (Locals.num v) (Locals.denom v),
             Spec.P2 (Locals.num v) (Locals.denom v),
             Spec.P3 (Locals.denom v))) /\
    (In (Locals.num v) pll_q_hazards ->
     Spec.unpack (frame_at SI_SYNTH_PLL_A ws)
     = Some (Spec.P1 (Locals.mult v) (Locals.num v) (Locals.denom v) + 1,
             Spec.P2 (Locals.num v) (Locals.denom v) + 1,
             Spec.P3 (Locals.denom v))).
Proof. split; [lia|apply (in_range_pll_frame_decodes 14199605); lia]. Defined.

(** X16. The numerator for every 32-bit frequency, also outside the
    supported range and after the product has wrapped: the remainder is
    below [xtalFreq], [num] is within one of the exact floor of
    [remainder * 1048575 / xtalFreq] and [0 <= num <= denom = 1048575], so
    the numerator always fits the 20-bit field. *)
Theorem numerator_bounds_for_every_frequency (F : Z) :
  exists v,
    si5351aSetFrequency_locals (u32 F) = Some v /\
    0 <= Locals.l v < Si5351A_XTAL_FREQ /\
    Spec.num (Locals.l v) - 1 <= Locals.num v <= Spec.num (Locals.l v) + 1 /\
    0 <= Locals.num v <= Locals.denom v /\
    Locals.denom v = 1048575 /\
    Locals.num v < 2 ^ 20.
Proof.
  destruct (locals_total (u32 F)) as (v & Hv & _ & _ & _ & Hl & Hn & Hden).
  exists v. split; [exact Hv|].
  pose proof (Z.mod_pos_bound (Locals.pllFreq v) Si5351A_XTAL_FREQ ltac:(reflexivity)) as Hmod.
  assert (Hl' : Locals.l v = Locals.pllFreq v mod Si5351A_XTAL_FREQ).
  { rewrite Hl. unfold u32. apply Z.mod_small. unfold Si5351A_XTAL_FREQ in *.
    change (2 ^ 32) with 4294967296. lia. }
  rewrite <- Hl' in Hmod.
  pose proof (plan_num_close (Locals.l v) Hmod) as Hc. rewrite <- Hn in Hc.
  assert (Hf : 0 <= Spec.num (Locals.l v) <= 1048574).
  { unfold Spec.num, Si5351A_XTAL_FREQ in *. split; [apply Z.div_pos; lia|].
    apply Z.lt_succ_r, Z.div_lt_upper_bound; lia. }
  assert (Hn0 : 0 <= Locals.num v).
  { rewrite Hn. unfold plan_num, Float32.to_ulong, u32.
    apply Z.mod_pos_bound. reflexivity. }
  split; [exact Hmod|]. split; [exact Hc|]. rewrite Hden.
  change (2 ^ 20) with 1048576. repeat split; lia.
Qed.

End Further.
